(** * License validation and offline activation (ProjetoRatoengine)

    A shallow embedding of the licensing core of the server:

    - [services/license.js]: [createLicense], [calculateExpiration],
      [validateLicense], [revokeLicense], [resetMachines], [logActivation];
    - [services/crypto.js]: [generateLicenseKey], [encryptLicenseData],
      [decryptLicenseData], [createOfflineToken], [verifyOfflineToken];
    - [database/db.js]: the [licenses] and [activation_logs] tables.

    How the program's world is written:

    - JavaScript's [Date] through the abstract operations of ECMAScript
      (Day, TimeWithinDay, DayFromYear, YearFromTime, MonthFromTime,
      DateFromTime, MakeDay, MakeDate) on time values, which are integers
      (milliseconds since the epoch); dates are stored as the text
      [toISOString] writes and read back by [Date_parse];
    - the clock, the time zone (its offset from UTC at every instant,
      daylight saving included), what the engine reads in a date written
      in another format than that of [toISOString], and the two sources of
      randomness as inputs of a call ([env]);
    - the SQLite tables as lists of rows, a statement as a function on the
      database; a call that executes statements is written in a state
      monad with early [return];
    - JSON texts by the value they denote ([json_text], [machines_text]);
    - Node's [crypto] module as an interface ([NodeCrypto]): the statements
      hold of every implementation, and where one needs the cipher to be
      at work this is a hypothesis ([sealed]). *)

From Stdlib Require Import ZArith Lia List Bool String Ascii DecimalString.
Import ListNotations.

Set Warnings "-register-all".

Local Open Scope string_scope.
Local Open Scope Z_scope.

(** ** ECMAScript time values *)

Module JsDate.

Definition msPerDay : Z := 86400000.
Definition msPerHour : Z := 3600000.
Definition msPerMinute : Z := 60000.
Definition msPerSecond : Z := 1000.

Definition Day (t : Z) : Z := t / msPerDay.
Definition TimeWithinDay (t : Z) : Z := t mod msPerDay.

Definition DayFromYear (y : Z) : Z :=
  365 * (y - 1970) + (y - 1969) / 4 - (y - 1901) / 100 + (y - 1601) / 400.

Definition InLeapYear (y : Z) : bool :=
  (y mod 4 =? 0) && (negb (y mod 100 =? 0) || (y mod 400 =? 0)).

Definition DaysInYear (y : Z) : Z := if InLeapYear y then 366 else 365.

(** The Gregorian calendar repeats every 400 years, 146097 days.  The year
    of a day number is found inside the 400 years that start with 2000
    (day 10957) and moved back by whole periods. *)
Definition daysPer400Years : Z := 146097.
Definition dayOf2000 : Z := 10957.

Definition YearFromDay (d : Z) : Z :=
  let q := (d - dayOf2000) / daysPer400Years in
  let r := (d - dayOf2000) mod daysPer400Years in
  let k := r / 365 in
  let k := if r <? DayFromYear (2000 + k) - dayOf2000 then k - 1 else k in
  2000 + 400 * q + k.

(** YearFromTime(t): the largest year [y] with TimeFromYear(y) <= t. *)
Definition YearFromTime (t : Z) : Z := YearFromDay (Day t).

Definition DayWithinYear (t : Z) : Z := Day t - DayFromYear (YearFromTime t).

(** Days of the year before month [m] (0 = January). *)
Definition daysBeforeMonth (leap : bool) (m : Z) : Z :=
  let l := if leap then 1 else 0 in
  if m <=? 0 then 0
  else if m =? 1 then 31
  else if m =? 2 then 59 + l
  else if m =? 3 then 90 + l
  else if m =? 4 then 120 + l
  else if m =? 5 then 151 + l
  else if m =? 6 then 181 + l
  else if m =? 7 then 212 + l
  else if m =? 8 then 243 + l
  else if m =? 9 then 273 + l
  else if m =? 10 then 304 + l
  else 334 + l.

Definition MonthFromTime (t : Z) : Z :=
  let d := DayWithinYear t in
  let l := if InLeapYear (YearFromTime t) then 1 else 0 in
  if d <? 31 then 0
  else if d <? 59 + l then 1
  else if d <? 90 + l then 2
  else if d <? 120 + l then 3
  else if d <? 151 + l then 4
  else if d <? 181 + l then 5
  else if d <? 212 + l then 6
  else if d <? 243 + l then 7
  else if d <? 273 + l then 8
  else if d <? 304 + l then 9
  else if d <? 334 + l then 10
  else 11.

Definition DateFromTime (t : Z) : Z :=
  DayWithinYear t
  - daysBeforeMonth (InLeapYear (YearFromTime t)) (MonthFromTime t) + 1.

Definition HourFromTime (t : Z) : Z := (t / msPerHour) mod 24.
Definition MinFromTime (t : Z) : Z := (t / msPerMinute) mod 60.
Definition SecFromTime (t : Z) : Z := (t / msPerSecond) mod 60.
Definition msFromTime (t : Z) : Z := t mod msPerSecond.

(** MakeDay(year, month, date): months outside 0..11 carry into the year,
    dates outside the month carry into the following months. *)
Definition MakeDay (year month date : Z) : Z :=
  let ym := year + month / 12 in
  let mn := month mod 12 in
  DayFromYear ym + daysBeforeMonth (InLeapYear ym) mn + date - 1.

Definition MakeTime (hour min sec ms : Z) : Z :=
  hour * msPerHour + min * msPerMinute + sec * msPerSecond + ms.

Definition MakeDate (day time : Z) : Z := day * msPerDay + time.

(** TimeClip: a time value more than 100 000 000 days from the epoch is
    no time value (NaN, here [None]). *)
Definition TimeClip (t : option Z) : option Z :=
  match t with
  | Some t => if Z.abs t <=? 8640000000000000 then Some t else None
  | None => None
  end.

(** *** Local time

    LocalTZA(t, isUTC) of ECMAScript is the offset of the local time zone
    from UTC, in milliseconds: the one in force at the instant [t] when
    [isUTC], the one by which the local time [t] is to be read otherwise.
    It follows the rules of the zone, daylight saving included, and is
    implementation-defined: a parameter here. *)
Definition LocalTime (tza : Z -> bool -> Z) (t : Z) : Z := t + tza t true.
Definition UTC (tza : Z -> bool -> Z) (t : Z) : Z := t - tza t false.

(** The [Date] methods the service calls; they read and write the fields
    of local time.  The dates they make are centuries away from the ends
    of the range of time values, so their TimeClip is left out. *)
Definition getMonth (tza : Z -> bool -> Z) (t : Z) : Z :=
  MonthFromTime (LocalTime tza t).
Definition getFullYear (tza : Z -> bool -> Z) (t : Z) : Z :=
  YearFromTime (LocalTime tza t).

Definition setMonth (tza : Z -> bool -> Z) (t month : Z) : Z :=
  let lt := LocalTime tza t in
  UTC tza (MakeDate (MakeDay (YearFromTime lt) month (DateFromTime lt))
                    (TimeWithinDay lt)).

Definition setFullYear (tza : Z -> bool -> Z) (t year : Z) : Z :=
  let lt := LocalTime tza t in
  UTC tza (MakeDate (MakeDay year (MonthFromTime lt) (DateFromTime lt))
                    (TimeWithinDay lt)).

(** *** Text of a date *)

Definition digit (n : Z) : ascii := ascii_of_nat (48 + Z.to_nat (n mod 10)).

(** [n] in decimal on exactly [w] digits (the low ones). *)
Fixpoint pad (w : nat) (n : Z) : string :=
  match w with
  | O => ""
  | S w' => pad w' (n / 10) ++ String (digit n) ""
  end.

Definition yearText (y : Z) : string :=
  if (0 <=? y) && (y <=? 9999) then pad 4 y
  else (if y <? 0 then "-" else "+") ++ pad 6 (Z.abs y).

(** Date.prototype.toISOString: YYYY-MM-DDTHH:mm:ss.sssZ, in UTC. *)
Definition toISOString (t : Z) : string :=
  yearText (YearFromTime t) ++ "-" ++ pad 2 (MonthFromTime t + 1) ++ "-"
    ++ pad 2 (DateFromTime t) ++ "T" ++ pad 2 (HourFromTime t) ++ ":"
    ++ pad 2 (MinFromTime t) ++ ":" ++ pad 2 (SecFromTime t) ++ "."
    ++ pad 3 (msFromTime t) ++ "Z".

(** SQLite's CURRENT_TIMESTAMP: YYYY-MM-DD HH:MM:SS, in UTC. *)
Definition CURRENT_TIMESTAMP (t : Z) : string :=
  yearText (YearFromTime t) ++ "-" ++ pad 2 (MonthFromTime t + 1) ++ "-"
    ++ pad 2 (DateFromTime t) ++ " " ++ pad 2 (HourFromTime t) ++ ":"
    ++ pad 2 (MinFromTime t) ++ ":" ++ pad 2 (SecFromTime t).

Definition digitValue (c : ascii) : option Z :=
  let n := Z.of_nat (nat_of_ascii c) in
  if (48 <=? n) && (n <=? 57) then Some (n - 48) else None.

(** The number written by a string of decimal digits. *)
Fixpoint number (acc : Z) (s : string) : option Z :=
  match s with
  | "" => Some acc
  | String c s' =>
      match digitValue c with
      | Some v => number (10 * acc + v) s'
      | None => None
      end
  end.

Definition charIs (c : ascii) (s : string) (n : nat) : bool :=
  match String.get n s with
  | Some c' => Ascii.eqb c c'
  | None => false
  end.

(** The fields that follow the year, -MM-DDTHH:mm:ss.sssZ from place [o]
    on, as V8 reads them: month 01..12, day 01..31, 24:00:00.000 allowed
    as the end of the day. *)
Definition fieldsFrom (o : nat) (year : option Z) (s : string) : option Z :=
  if charIs "-" s o && charIs "-" s (o + 3) && charIs "T" s (o + 6)
     && charIs ":" s (o + 9) && charIs ":" s (o + 12)
     && charIs "." s (o + 15) && charIs "Z" s (o + 19)
  then
    match year, number 0 (substring (o + 1) 2 s),
          number 0 (substring (o + 4) 2 s), number 0 (substring (o + 7) 2 s),
          number 0 (substring (o + 10) 2 s),
          number 0 (substring (o + 13) 2 s),
          number 0 (substring (o + 16) 3 s) with
    | Some y, Some mo, Some d, Some h, Some mi, Some sec, Some ms =>
        if (1 <=? mo) && (mo <=? 12) && (1 <=? d) && (d <=? 31)
           && (mi <=? 59) && (sec <=? 59)
           && ((h <=? 23) || ((h =? 24) && (mi =? 0) && (sec =? 0) && (ms =? 0)))
        then Some (MakeDate (MakeDay y (mo - 1) d) (MakeTime h mi sec ms))
        else None
    | _, _, _, _, _, _, _ => None
    end
  else None.

(** The two forms [toISOString] writes: YYYY-MM-DDTHH:mm:ss.sssZ (24
    characters) and, for a year beyond 9999, +YYYYYY-MM-DDTHH:mm:ss.sssZ
    (27 characters).  [None]: the text has neither form, or its fields are
    out of range. *)
Definition parseISO (s : string) : option Z :=
  if (String.length s =? 24)%nat then
    fieldsFrom 4 (number 0 (substring 0 4 s)) s
  else if (String.length s =? 27)%nat && charIs "+" s 0 then
    TimeClip (fieldsFrom 7 (number 0 (substring 1 6 s)) s)
  else None.

(** Date.parse.  A text in one of the forms of [toISOString] is read by
    [parseISO].  What becomes of any other text is left to the engine
    (ECMAScript lets an implementation fall back on its own formats, and
    V8 reads many: '2020-01-01', '2020-01-01 00:00:00', 'Jan 1 2020'): it
    is the parameter [other], [None] being an invalid date (NaN). *)
Definition Date_parse (other : string -> option Z) (s : string) : option Z :=
  match parseISO s with
  | Some t => Some t
  | None => other s
  end.

End JsDate.

Import JsDate.

(** ** Completions

    A call either returns a value or throws.  [Throw] carries the name of the
    JavaScript error. *)

Inductive completion (A : Type) : Type :=
| Return (a : A)
| Throw (error : string).

Arguments Return {A} a.
Arguments Throw {A} error.

(** ** License keys ([services/crypto.js]) *)

(** [s.charAt(i)]: the character at [i], the empty string outside the
    string. *)
Definition charAt (s : string) (i : Z) : string :=
  if i <? 0 then ""
  else match String.get (Z.to_nat i) s with
       | Some c => String c ""
       | None => ""
       end.

Definition chars : string := "ABCDEFGHIJKLMNOPQRSTUVWXYZ0123456789".

Module KeyGenerator.

(** [Math.floor(Math.random() * chars.length)]: the source of randomness
    is a sequence [random] of such indices, the [n]-th call reading
    [random n]; [Math.random()] lies in [0, 1), so every index lies in
    [0, chars.length). *)
Definition rng : Type := nat -> Z.

(** The inner loop, [for (j = 0; j < 4; j++)], with [n] the number of
    random numbers drawn so far. *)
Fixpoint group (random : rng) (j : nat) (key : string) (n : nat)
  : string * nat :=
  match j with
  | O => (key, n)
  | S j' => group random j' (key ++ charAt chars (random n)) (S n)
  end.

(** The outer loop, [for (i = 0; i < 4; i++)]. *)
Fixpoint groups (random : rng) (i : nat) (key : string) (n : nat)
  : string * nat :=
  match i with
  | O => (key, n)
  | S i' =>
      let '(key, n) := group random 4 (key ++ "-") n in
      groups random i' key n
  end.

Definition generateLicenseKey (random : rng) : string :=
  fst (groups random 4 "RATO" 0).

(** The pattern [^RATO(-[A-Z0-9]{4}){4}$] of the specification. *)
Definition alnum (c : ascii) : bool :=
  let n := nat_of_ascii c in
  ((65 <=? n) && (n <=? 90) || (48 <=? n) && (n <=? 57))%nat.

(** [-[A-Z0-9]{4}] at the head of [s]; the rest of [s] when it matches. *)
Definition matchGroup (s : string) : option string :=
  match s with
  | String d (String a (String b (String c (String e rest)))) =>
      if Ascii.eqb d "-" && alnum a && alnum b && alnum c && alnum e
      then Some rest else None
  | _ => None
  end.

Fixpoint matchGroups (n : nat) (s : string) : option string :=
  match n with
  | O => Some s
  | S n' =>
      match matchGroup s with
      | Some rest => matchGroups n' rest
      | None => None
      end
  end.

Definition matchesKeyPattern (s : string) : bool :=
  match s with
  | String r (String a (String t (String o rest))) =>
      Ascii.eqb r "R" && Ascii.eqb a "A" && Ascii.eqb t "T" && Ascii.eqb o "O"
      && match matchGroups 4 rest with
         | Some "" => true
         | _ => false
         end
  | _ => false
  end.

End KeyGenerator.

Import KeyGenerator.

(** ** JSON values and the coercions of JavaScript *)

Module Js.

(** What [JSON.parse] returns.  Numbers are the integral ones (exact below
    2^53), which is all a time value is. *)
Inductive value : Type :=
| VNull
| VBool (b : bool)
| VNum (n : Z)
| VStr (s : string)
| VArr (elements : list value)
| VObj (fields : list (string * value)).

(** A text handed to [JSON.parse], written by what it denotes: the text of
    a value, as [JSON.stringify] writes it, or a text that is not JSON. *)
Inductive json_text : Type :=
| JsonText (v : value)
| NotJson (text : string).

Definition JSON_stringify (v : value) : json_text := JsonText v.

(** [None]: [JSON.parse] throws a SyntaxError. *)
Definition JSON_parse (t : json_text) : option value :=
  match t with
  | JsonText v => Some v
  | NotJson _ => None
  end.

Fixpoint lookup (name : string) (fields : list (string * value))
  : option value :=
  match fields with
  | [] => None
  | (k, v) :: rest => if String.eqb k name then Some v else lookup name rest
  end.

(** [v.name] for a value other than null, [None] for undefined: only an
    object has the properties read here. *)
Definition get (v : value) (name : string) : option value :=
  match v with
  | VObj fields => lookup name fields
  | _ => None
  end.

(** [!v] is false. *)
Definition truthy (v : value) : bool :=
  match v with
  | VNull => false
  | VBool b => b
  | VNum n => negb (n =? 0)
  | VStr s => negb (String.eqb s "")
  | VArr _ | VObj _ => true
  end.

Inductive prim : Type :=
| PUndefined
| PNull
| PBool (b : bool)
| PNum (n : Z)
| PNaN
| PStr (s : string).

Definition decimal (n : Z) : string :=
  DecimalString.NilZero.string_of_int (Z.to_int n).

(** ToString of a value; an array is its elements joined by commas, with
    null written as the empty string, an object is [[object Object]]. *)
Fixpoint valueText (v : value) : string :=
  match v with
  | VNull => "null"
  | VBool true => "true"
  | VBool false => "false"
  | VNum n => decimal n
  | VStr s => s
  | VArr l =>
      (fix join (l : list value) : string :=
         match l with
         | [] => ""
         | [x] => match x with VNull => "" | _ => valueText x end
         | x :: rest =>
             (match x with VNull => "" | _ => valueText x end)
               ++ "," ++ join rest
         end) l
  | VObj _ => "[object Object]"
  end.

Definition ToPrimitive (v : option value) : prim :=
  match v with
  | None => PUndefined
  | Some VNull => PNull
  | Some (VBool b) => PBool b
  | Some (VNum n) => PNum n
  | Some (VStr s) => PStr s
  | Some (VArr l) => PStr (valueText (VArr l))
  | Some (VObj f) => PStr (valueText (VObj f))
  end.

Definition ToString (p : prim) : string :=
  match p with
  | PUndefined => "undefined"
  | PNull => "null"
  | PBool true => "true"
  | PBool false => "false"
  | PNum n => decimal n
  | PNaN => "NaN"
  | PStr s => s
  end.

(** ToNumber of a primitive that is not a string; [None] is NaN. *)
Definition ToNumber (p : prim) : option Z :=
  match p with
  | PUndefined | PNaN | PStr _ => None
  | PNull => Some 0
  | PBool b => Some (if b then 1 else 0)
  | PNum n => Some n
  end.

(** [a + b]: concatenation as soon as one side is a string. *)
Definition add (a b : prim) : prim :=
  match a, b with
  | PStr x, _ => PStr (x ++ ToString b)
  | _, PStr y => PStr (ToString a ++ y)
  | _, _ =>
      match ToNumber a, ToNumber b with
      | Some x, Some y => PNum (x + y)
      | _, _ => PNaN
      end
  end.

(** The time value of [new Date(v)], with [other] the engine's reading of
    the texts [Date_parse] leaves to it; [None] is an invalid date. *)
Definition new_Date (other : string -> option Z) (v : option value)
  : option Z :=
  match ToPrimitive v with
  | PStr s => Date_parse other s
  | p => TimeClip (ToNumber p)
  end.

(** [d < new Date()] for a date [d]: false for an invalid one. *)
Definition before (d : option Z) (now : Z) : bool :=
  match d with
  | Some t => t <? now
  | None => false
  end.

(** [v !== s] for a string [s]. *)
Definition differs (v : option value) (s : string) : bool :=
  match v with
  | Some (VStr s') => negb (String.eqb s' s)
  | _ => true
  end.

(** [s.slice(i, j)] and [s.slice(i)] for indices that are not negative. *)
Definition slice (s : string) (i j : nat) : string := substring i (j - i) s.
Definition sliceFrom (s : string) (i : nat) : string :=
  substring i (String.length s - i) s.

Definition startsWith (s p : string) : bool := prefix p s.

End Js.

Import Js.

(** ** Node's [crypto], as the service uses it

    Buffers are written by their hexadecimal text.  The cipher is
    AES-256-GCM, the key the scrypt of the configured secret; what the
    functions compute is left to the instance. *)

Class NodeCrypto : Type := {
  cipherKey : Type;
  (** [crypto.scryptSync(secret, salt, keylen)] *)
  scryptSync : string -> string -> Z -> cipherKey;
  (** [createCipheriv(ALGORITHM, key, iv)], [update(text, 'utf8', 'hex')]
      and [final('hex')], then [getAuthTag()]: the encrypted text and the
      tag. *)
  cipher : cipherKey -> string -> json_text -> string * string;
  (** [createDecipheriv(ALGORITHM, key, iv)], [setAuthTag(tag)],
      [update(encrypted, 'hex', 'utf8')] and [final('utf8')]; [None] when
      one of them throws. *)
  decipher : cipherKey -> string -> string -> string -> option json_text;
  (** [createHmac('sha256', secret).update(message).digest('hex')] *)
  hmac_sha256 : string -> string -> string
}.

Module config.
Definition licenseSecret : string := "ratoengine-license-encryption-key-v1".
End config.

Definition IV_LENGTH : nat := 16.
Definition AUTH_TAG_LENGTH : nat := 16.

(** ** The database ([database/db.js]) *)

(** The [machines_used] column holds the JSON text of an array of machine
    identifiers, which is all the service ever writes in it; it is written
    by the array it denotes.  A text that is not JSON keeps its characters.
    JSON of another shape (null, an object, a number, a string) has no
    constructor: the rows of the model are the rows of the data model. *)
Inductive machines_text : Type :=
| MachinesJson (machines : list string)
| MachinesNotJson (text : string).

(** A row of [licenses].  [email] and [last_validated] may be NULL; the
    other columns are NOT NULL or always written by the service, and
    [machines_used] is NULL only when a row was written from outside.
    The INTEGER columns hold integers; JavaScript reads them as doubles,
    which is exact up to 2^53 in absolute value. *)
Record license : Type := mkLicense {
  id : Z;
  key : string;
  email : option string;
  plan : string;
  max_machines : Z;
  machines_used : option machines_text;
  status : string;
  created_at : string;
  expires_at : string;
  last_validated : option string
}.

Record activation_log : Type := mkLog {
  log_id : Z;
  license_id : Z;
  machine_id : string;
  action : string;
  ip_address : option string;
  log_created_at : string
}.

(** The two tables, each with the last row id AUTOINCREMENT gave out. *)
Record database : Type := mkDatabase {
  licenses : list license;
  licenses_seq : Z;
  activation_logs : list activation_log;
  activation_logs_seq : Z
}.

Definition set_status (v : string) (l : license) : license :=
  mkLicense (id l) (key l) (email l) (plan l) (max_machines l)
            (machines_used l) v (created_at l) (expires_at l)
            (last_validated l).

Definition set_expires_at (v : string) (l : license) : license :=
  mkLicense (id l) (key l) (email l) (plan l) (max_machines l)
            (machines_used l) (status l) (created_at l) v (last_validated l).

Definition set_machines_used (v : option machines_text) (l : license)
  : license :=
  mkLicense (id l) (key l) (email l) (plan l) (max_machines l) v (status l)
            (created_at l) (expires_at l) (last_validated l).

Definition set_last_validated (v : option string) (l : license) : license :=
  mkLicense (id l) (key l) (email l) (plan l) (max_machines l)
            (machines_used l) (status l) (created_at l) (expires_at l) v.

Definition with_licenses (ls : list license) (db : database) : database :=
  mkDatabase ls (licenses_seq db) (activation_logs db)
             (activation_logs_seq db).

(** What a call reads from outside: the clock ([new Date()], taken as one
    instant for the whole call), the offsets of the server's time zone, the
    engine's reading of dates in other formats than that of [toISOString],
    the bytes of [crypto.randomBytes(16)] in hexadecimal and
    [Math.random]. *)
Record env : Type := mkEnv {
  Date_now : Z;
  LocalTZA : Z -> bool -> Z;
  otherFormats : string -> option Z;
  randomBytes : string;
  Math_random : rng
}.

(** *** Statements

    A statement of the service runs on the database and either goes on with
    a value ([inr]) or has executed a [return] ([inl]). *)

Definition Db (R A : Type) : Type := database -> (R + A) * database.

Definition ret {R A : Type} (a : A) : Db R A := fun db => (inr a, db).

Definition exit {R A : Type} (r : R) : Db R A := fun db => (inl r, db).

Definition bind {R A B : Type} (m : Db R A) (k : A -> Db R B) : Db R B :=
  fun db =>
    match m db with
    | (inl r, db') => (inl r, db')
    | (inr a, db') => k a db'
    end.

Notation "x <- m ;; k" := (bind m (fun x => k))
  (at level 61, m at next level, right associativity).
Notation "m ;;; k" := (bind m (fun _ => k))
  (at level 61, right associativity).

Definition run {R : Type} (m : Db R R) (db : database) : R * database :=
  match m db with
  | (inl r, db') => (r, db')
  | (inr r, db') => (r, db')
  end.

(** [SELECT * FROM licenses WHERE key = ?], [.get(key)] *)
Definition select_license_by_key {R : Type} (k : string)
  : Db R (option license) :=
  fun db => (inr (find (fun l => String.eqb (key l) k) (licenses db)), db).

(** [SELECT * FROM licenses WHERE id = ?], [.get(id)] *)
Definition select_license_by_id {R : Type} (i : Z) : Db R (option license) :=
  fun db => (inr (find (fun l => id l =? i) (licenses db)), db).

(** [INSERT INTO licenses (key, email, plan, max_machines, expires_at,
    status)]: the row gets the next id, [machines_used] its default '[]',
    [created_at] the current time stamp and no [last_validated].  The
    statement throws when the key is already there ([key TEXT UNIQUE]);
    otherwise it returns the new row's id. *)
Definition insert_license {R : Type} (e : env) (k : string)
    (mail : option string) (pl : string) (maxm : Z) (expires st : string)
  : Db R (completion Z) :=
  fun db =>
    if existsb (fun l => String.eqb (key l) k) (licenses db)
    then (inr (Throw "SqliteError"), db)
    else
      let i := licenses_seq db + 1 in
      let row := mkLicense i k mail pl maxm (Some (MachinesJson [])) st
                           (CURRENT_TIMESTAMP (Date_now e)) expires None in
      (inr (Return i),
       mkDatabase (licenses db ++ [row]) i (activation_logs db)
                  (activation_logs_seq db)).

(** [UPDATE licenses SET ... WHERE id = ?] *)
Definition update_license {R : Type} (set : license -> license) (i : Z)
  : Db R unit :=
  fun db =>
    (inr tt,
     with_licenses
       (map (fun l => if id l =? i then set l else l) (licenses db)) db).

(** [INSERT INTO activation_logs (license_id, machine_id, action,
    ip_address)]; it throws when no license has the id ([FOREIGN KEY
    (license_id) REFERENCES licenses(id)], with foreign keys on). *)
Definition insert_activation_log {R : Type} (e : env) (licenseId : Z)
    (machineId act : string) (ip : option string) : Db R (completion unit) :=
  fun db =>
    if existsb (fun l => id l =? licenseId) (licenses db)
    then
      let i := activation_logs_seq db + 1 in
      let row := mkLog i licenseId machineId act ip
                       (CURRENT_TIMESTAMP (Date_now e)) in
      (inr (Return tt),
       mkDatabase (licenses db) (licenses_seq db)
                  (activation_logs db ++ [row]) i)
    else (inr (Throw "SqliteError"), db).

(** ** The token codec ([services/crypto.js]) *)

Section Codec.

Context {crypto : NodeCrypto}.

Definition getEncryptionKey : cipherKey :=
  scryptSync config.licenseSecret "salt" 32.

(** [encryptLicenseData(data)]: IV + AuthTag + encrypted data, each in
    hexadecimal. *)
Definition encryptLicenseData (e : env) (data : value) : string :=
  let key := getEncryptionKey in
  let iv := randomBytes e in
  let '(encrypted, authTag) := cipher key iv (JSON_stringify data) in
  iv ++ authTag ++ encrypted.

(** [decryptLicenseData(encryptedData)]: the parsed data, or null
    ([None]) when anything in the [try] block throws. *)
Definition decryptLicenseData (encryptedData : string) : option value :=
  let key := getEncryptionKey in
  let iv := slice encryptedData 0 (IV_LENGTH * 2) in
  let authTag :=
    slice encryptedData (IV_LENGTH * 2)
          (IV_LENGTH * 2 + AUTH_TAG_LENGTH * 2) in
  let encrypted :=
    sliceFrom encryptedData (IV_LENGTH * 2 + AUTH_TAG_LENGTH * 2) in
  match decipher key iv authTag encrypted with
  | Some decrypted => JSON_parse decrypted
  | None => None
  end.

(** The [data] object of [createOfflineToken]. *)
Definition offlineTokenData (e : env) (l : license) (machineId : string)
  : value :=
  VObj [ ("key", VStr (key l));
         ("machineId", VStr machineId);
         ("expiresAt", VStr (expires_at l));
         ("plan", VStr (plan l));
         ("createdAt", VStr (toISOString (Date_now e)));
         ("validationSignature",
          VStr (hmac_sha256 config.licenseSecret
                  ((key l ++ machineId) ++ expires_at l))) ].

Definition createOfflineToken (e : env) (l : license) (machineId : string)
  : string :=
  let data := offlineTokenData e l machineId in
  encryptLicenseData e data.

(** Node's cipher at work on [d] with the random bytes of [e]: the tag
    has [AUTH_TAG_LENGTH] bytes, and the decipher, given the same key, IV
    and tag, returns the text that was encrypted. *)
Definition sealed (e : env) (d : value) : Prop :=
  let '(encrypted, authTag) :=
    cipher getEncryptionKey (randomBytes e) (JSON_stringify d) in
  String.length authTag = (AUTH_TAG_LENGTH * 2)%nat
  /\ decipher getEncryptionKey (randomBytes e) authTag encrypted
     = Some (JSON_stringify d).

End Codec.

(** ** Results *)

Record public_license : Type := mkPublic {
  pub_key : string;
  pub_plan : string;
  pub_expiresAt : string;
  pub_machinesUsed : Z;
  pub_maxMachines : Z
}.

(** The object a validation returns: [valid], and of [reason], [license],
    [offlineToken] and [data] the ones the call sets. *)
Record result : Type := mkResult {
  valid : bool;
  reason : option string;
  licenseInfo : option public_license;
  offlineToken : option string;
  data : option value
}.

Definition invalid (why : string) : result :=
  mkResult false (Some why) None None None.

Section Service.

Context {crypto : NodeCrypto}.

(** [verifyOfflineToken(token)].  [hmac.update] takes a string (or a
    buffer) and throws a TypeError on anything else. *)
Definition verifyOfflineToken (e : env) (token : string)
  : completion result :=
  match decryptLicenseData token with
  | None => Return (invalid "Invalid token")
  | Some d =>
      if negb (truthy d) then Return (invalid "Invalid token")
      else if before (new_Date (otherFormats e) (get d "expiresAt"))
                     (Date_now e)
      then Return (invalid "License expired")
      else
        match add (add (ToPrimitive (get d "key"))
                       (ToPrimitive (get d "machineId")))
                  (ToPrimitive (get d "expiresAt")) with
        | PStr message =>
            let expectedSignature :=
              hmac_sha256 config.licenseSecret message in
            if differs (get d "validationSignature") expectedSignature
            then Return (invalid "Invalid signature")
            else Return (mkResult true None None None (Some d))
        | _ => Throw "TypeError"
        end
  end.

(** ** The license service ([services/license.js]) *)

Definition calculateExpiration (e : env) (pl : string) : string :=
  let tza := LocalTZA e in
  let now := Date_now e in
  let now :=
    if String.eqb pl "monthly" then
      setMonth tza now (getMonth tza now + 1)
    else if String.eqb pl "annual" then
      setFullYear tza now (getFullYear tza now + 1)
    else if String.eqb pl "lifetime" then
      setFullYear tza now (getFullYear tza now + 100)
    else
      setMonth tza now (getMonth tza now + 1) in
  toISOString now.

(** The argument of [createLicense]; an absent field is [None]. *)
Record license_data : Type := mkData {
  data_email : option string;
  data_plan : string;
  data_maxMachines : option Z
}.

Record created_license : Type := mkCreated {
  new_id : Z;
  new_key : string;
  new_email : option string;
  new_plan : string;
  new_maxMachines : Z;
  new_expiresAt : string
}.

(** [data.email || null] *)
Definition emailOrNull (m : option string) : option string :=
  match m with
  | Some "" | None => None
  | Some a => Some a
  end.

(** [data.maxMachines || 1] *)
Definition maxMachinesOr1 (m : option Z) : Z :=
  match m with
  | Some 0 | None => 1
  | Some n => n
  end.

(** The insertion leaves [status] to its default, 'active'.  A key that is
    already in the table makes the statement, and so the call, throw. *)
Definition createLicense (e : env) (d : license_data) (db : database)
  : completion created_license * database :=
  run (let k := generateLicenseKey (Math_random e) in
       let expiresAt := calculateExpiration e (data_plan d) in
       inserted <- insert_license e k (emailOrNull (data_email d))
                     (data_plan d) (maxMachinesOr1 (data_maxMachines d))
                     expiresAt "active" ;;
       match inserted with
       | Throw err => exit (Throw err)
       | Return lastInsertRowid =>
           ret (Return (mkCreated lastInsertRowid k (data_email d)
                          (data_plan d)
                          (maxMachinesOr1 (data_maxMachines d))
                          expiresAt))
       end) db.

(** [logActivation(licenseId, machineId, action, ipAddress = null)] *)
Definition logActivation {R : Type} (e : env) (licenseId : Z)
    (machineId act : string) : Db R (completion unit) :=
  insert_activation_log e licenseId machineId act None.

(** [JSON.parse(license.machines_used || '[]')] inside its [try]: the
    empty array when the column is null or empty, and when the text does
    not parse. *)
Definition parseMachines (l : license) : list string :=
  let text :=
    match machines_used l with
    | None | Some (MachinesNotJson "") => MachinesJson []
    | Some t => t
    end in
  match text with
  | MachinesJson machines => machines
  | MachinesNotJson _ => []
  end.

(** [machines.includes(machineId)] *)
Definition includes (machines : list string) (machineId : string) : bool :=
  existsb (String.eqb machineId) machines.

Definition validateLicense (e : env) (k machineId : string)
    (db : database) : result * database :=
  run (license <- select_license_by_key k ;;
       (* [BYPASS] Auto-create license if it doesn't exist *)
       license <-
         match license with
         | Some l => ret (Some l)
         | None =>
             if negb (String.eqb k "") && startsWith k "RATO-" then
               let expiresAt := calculateExpiration e "lifetime" in
               inserted <- insert_license e k (Some "bypass@ratoengine.com")
                             "lifetime" 999 expiresAt "active" ;;
               match inserted with
               | Throw _ =>
                   exit (invalid "Database error during auto-activation")
               | Return _ => select_license_by_key k
               end
             else
               exit (invalid "Chave inválida (deve começar com RATO-)")
         end ;;
       license <-
         match license with
         | None => exit (invalid "License key not found")
         | Some l => ret l
         end ;;
       (* Force active status if somehow not active *)
       license <-
         (if negb (String.eqb (status license) "active") then
            update_license (set_status "active") (id license) ;;;
            ret (set_status "active" license)
          else ret license) ;;
       (* [BYPASS] Always update expiration to future if expired *)
       license <-
         (if before (Date_parse (otherFormats e) (expires_at license))
                    (Date_now e) then
            let newExpiry := calculateExpiration e "lifetime" in
            update_license
              (fun l => set_status "active" (set_expires_at newExpiry l))
              (id license) ;;;
            ret (set_expires_at newExpiry license)
          else ret license) ;;
       (* Check machine limit *)
       let machines := parseMachines license in
       machines <-
         (if negb (includes machines machineId) then
            (* [BYPASS] Always allow adding machine, ignore limits *)
            let machines := (machines ++ [machineId])%list in
            update_license
              (set_machines_used (Some (MachinesJson machines)))
              (id license) ;;;
            ret machines
          else ret machines) ;;
       (* Update last validated *)
       update_license
         (set_last_validated (Some (toISOString (Date_now e))))
         (id license) ;;;
       (* Log activation *)
       logActivation e (id license) machineId "validate" ;;;
       (* Create offline token *)
       let token := createOfflineToken e license machineId in
       ret (mkResult true None
              (Some (mkPublic (key license) (plan license)
                       (expires_at license)
                       (Z.of_nat (List.length machines))
                       (max_machines license)))
              (Some token) None)) db.

Record outcome : Type := mkOutcome { success : bool }.

Definition revokeLicense (i : Z) (db : database) : outcome * database :=
  run (update_license (set_status "revoked") i ;;;
       ret (mkOutcome true)) db.

Definition resetMachines (i : Z) (db : database) : outcome * database :=
  run (update_license (set_machines_used (Some (MachinesJson []))) i ;;;
       ret (mkOutcome true)) db.

End Service.

(** ** Definitions the statements below use *)

(** [p] holds on the [count] integers from [start] on. *)
Fixpoint allFrom (p : Z -> bool) (start : Z) (count : nat) : bool :=
  match count with
  | O => true
  | S n => p start && allFrom p (start + 1) n
  end.

(** Day [r] after the first day of 2000 lies in the year computed for it. *)
Definition inItsYear (r : Z) : bool :=
  let d := r + dayOf2000 in
  (DayFromYear (YearFromDay d) <=? d) && (d <? DayFromYear (YearFromDay d + 1)).

(** The length in days of the leap of [n] years that [setFullYear] makes
    from a date of year [y], before March ([early]) or from March on. *)
Definition yearsInDays (n y : Z) (early : bool) : Z :=
  DayFromYear (y + n) - DayFromYear y
  + (if early then 0
     else (if InLeapYear (y + n) then 1 else 0)
          - (if InLeapYear y then 1 else 0)).

(** The row [r] after a validation, at [e], of machine [machineId] that
    found the row [l]: the updates [validateLicense] issues, which take
    their values from [l] and reach the rows with the id of [l]. *)
Definition validated (e : env) (machineId : string) (l r : license)
  : license :=
  let r :=
    if negb (String.eqb (status l) "active")
    then set_status "active" r else r in
  let r :=
    if before (Date_parse (otherFormats e) (expires_at l)) (Date_now e)
    then set_status "active"
           (set_expires_at (calculateExpiration e "lifetime") r)
    else r in
  let r :=
    if negb (includes (parseMachines l) machineId)
    then set_machines_used
           (Some (MachinesJson (parseMachines l ++ [machineId])%list)) r
    else r in
  set_last_validated (Some (toISOString (Date_now e))) r.

Definition lookupKey (k : string) (db : database) : option license :=
  find (fun l => String.eqb (key l) k) (licenses db).

(** The log entry a validation appends. *)
Definition entry (e : env) (m : string) (l : license) (db : database)
  : activation_log :=
  mkLog (activation_logs_seq db + 1) (id l) m "validate" None
        (CURRENT_TIMESTAMP (Date_now e)).

(** The row the auto-creation inserts for key [k], and the database with
    it. *)
Definition created (e : env) (k : string) (db : database) : license :=
  mkLicense (licenses_seq db + 1) k (Some "bypass@ratoengine.com")
            "lifetime" 999 (Some (MachinesJson [])) "active"
            (CURRENT_TIMESTAMP (Date_now e))
            (calculateExpiration e "lifetime") None.

Definition inserted (e : env) (k : string) (db : database) : database :=
  mkDatabase (licenses db ++ [created e k db]) (licenses_seq db + 1)
             (activation_logs db) (activation_logs_seq db).

(** The database after a validation that found the row [l]. *)
Definition afterValidation (e : env) (m : string) (l : license)
    (db : database) : database :=
  mkDatabase
    (map (fun r => if id r =? id l then validated e m l r else r)
         (licenses db))
    (licenses_seq db)
    (activation_logs db ++ [entry e m l db])
    (activation_logs_seq db + 1).

(** ** Concrete inputs

    To run the service on concrete inputs, a stand-in for Node's [crypto]:
    a code book that deciphers five encrypted texts, and a function that
    only labels the message in place of the HMAC.  Whatever holds of every
    [NodeCrypto] holds of it; nothing below depends on it otherwise. *)

Module Example.

Definition iv : string := "000102030405060708090a0b0c0d0e0f".
Definition tag : string := "00000000000000000000000000000000".

Definition label (secret message : string) : string :=
  "hmac(" ++ message ++ ")".

Definition sequence : rng := fun n => Z.of_nat n * 7 mod 36.

(** A server in UTC. *)
Definition utc : Z -> bool -> Z := fun _ _ => 0.

(** A server in New York around the spring of 2025: five hours behind UTC
    until 2025-03-09T07:00:00Z, when the local clocks go from 02:00 to
    03:00, and four hours behind from then on. *)
Definition newYork : Z -> bool -> Z :=
  fun t isUTC =>
    if t <? (if isUTC then 1741503600000 else 1741489200000)
    then -5 * msPerHour else -4 * msPerHour.

(** An engine that reads, of the other formats, the date 2020-01-01
    alone. *)
Definition engine : string -> option Z :=
  fun s => if String.eqb s "2020-01-01" then Some 1577836800000 else None.

(** 2025-02-01T00:00:00.000Z, on a server in UTC *)
Definition february : env := mkEnv 1738368000000 utc engine iv sequence.

(** 2025-03-01T12:00:00.000Z, on a server in New York *)
Definition march : env := mkEnv 1740830400000 newYork engine iv sequence.

Definition K : string := "RATO-AAAA-BBBB-CCCC-DDDD".

(** One license: one machine allowed, machine A bound. *)
Definition license1 : license :=
  mkLicense 1 K (Some "ana@example.com") "monthly"
            1 (Some (MachinesJson ["A"])) "active" "2025-01-15 10:00:00"
            "2025-02-15T10:00:00.000Z" None.

Definition db1 : database := mkDatabase [license1] 1 [] 0.

Definition empty : database := mkDatabase [] 0 [] 0.

(** The data of the token for machine A of [license1], made in
    [february]. *)
Definition data1 : value :=
  VObj [ ("key", VStr K);
         ("machineId", VStr "A");
         ("expiresAt", VStr "2025-02-15T10:00:00.000Z");
         ("plan", VStr "monthly");
         ("createdAt", VStr "2025-02-01T00:00:00.000Z");
         ("validationSignature",
          VStr (label config.licenseSecret
                  "RATO-AAAA-BBBB-CCCC-DDDDA2025-02-15T10:00:00.000Z")) ].

(** Signed data whose expiry is written as a date alone, 2020-01-01. *)
Definition data2020 : value :=
  VObj [ ("key", VStr K);
         ("machineId", VStr "A");
         ("expiresAt", VStr "2020-01-01");
         ("plan", VStr "monthly");
         ("createdAt", VStr "2019-12-01T00:00:00.000Z");
         ("validationSignature",
          VStr (label config.licenseSecret
                  "RATO-AAAA-BBBB-CCCC-DDDDA2020-01-01")) ].

Definition codebook (encrypted : string) : option json_text :=
  if String.eqb encrypted "01" then Some (JsonText data1)
  else if String.eqb encrypted "02" then Some (JsonText (VObj []))
  else if String.eqb encrypted "03" then Some (NotJson "{")
  else if String.eqb encrypted "04" then Some (JsonText data2020)
  else if String.eqb encrypted "05" then Some (JsonText VNull)
  else None.

Definition standIn : NodeCrypto :=
  {| cipherKey := unit;
     scryptSync := fun _ _ _ => tt;
     cipher := fun _ _ _ => ("01", tag);
     decipher := fun _ _ t encrypted =>
                   if String.eqb t tag then codebook encrypted else None;
     hmac_sha256 := label |}.

End Example.

(** ** The rest of the license service ([services/license.js]) *)

Definition set_email (v : option string) (l : license) : license :=
  mkLicense (id l) (key l) v (plan l) (max_machines l) (machines_used l)
            (status l) (created_at l) (expires_at l) (last_validated l).

Definition set_plan (v : string) (l : license) : license :=
  mkLicense (id l) (key l) (email l) v (max_machines l) (machines_used l)
            (status l) (created_at l) (expires_at l) (last_validated l).

Definition set_max_machines (v : Z) (l : license) : license :=
  mkLicense (id l) (key l) (email l) (plan l) v (machines_used l)
            (status l) (created_at l) (expires_at l) (last_validated l).

(** [getLicenseById(id)]: the row, or undefined ([None]). *)
Definition getLicenseById (i : Z) (db : database)
  : option license * database :=
  run (select_license_by_id i) db.

(** The argument of [updateLicense]: a field that is undefined is [None];
    a field that is given holds a value of its column's type ([email] may
    be given as null). *)
Record license_update : Type := mkUpdate {
  upd_email : option (option string);
  upd_plan : option string;
  upd_maxMachines : option Z;
  upd_status : option string;
  upd_expiresAt : option string
}.

(** The arrays [updates] and [values] of [updateLicense], an assignment
    [column = ?] with its value being written as the setter of the
    column. *)
Definition assignments (d : license_update) : list (license -> license) :=
  (match upd_email d with Some v => [set_email v] | None => [] end)
  ++ (match upd_plan d with Some v => [set_plan v] | None => [] end)
  ++ (match upd_maxMachines d with
      | Some v => [set_max_machines v] | None => [] end)
  ++ (match upd_status d with Some v => [set_status v] | None => [] end)
  ++ (match upd_expiresAt d with
      | Some v => [set_expires_at v] | None => [] end).

(** [UPDATE licenses SET <updates> WHERE id = ?]: every assignment of the
    list. *)
Definition assign (updates : list (license -> license)) (l : license)
  : license :=
  fold_left (fun row set => set row) updates l.

Definition updateLicense (i : Z) (d : license_update) (db : database)
  : option license * database :=
  run (let updates := assignments d in
       if (List.length updates =? 0)%nat then select_license_by_id i
       else
         update_license (assign updates) i ;;;
         select_license_by_id i) db.

(** [SELECT COUNT( * ) as count FROM licenses WHERE status = ?] *)
Definition countStatus (st : string) (db : database) : Z :=
  Z.of_nat
    (List.length (filter (fun l => String.eqb (status l) st) (licenses db))).

(** One more license of plan [pl] in the groups of [GROUP BY plan].  SQLite
    groups by sorting on the column, so the groups are kept in ascending
    order of plan (bytewise, the BINARY collation). *)
Fixpoint tally (pl : string) (groups : list (string * Z))
  : list (string * Z) :=
  match groups with
  | [] => [(pl, 1)]
  | (p, n) :: rest =>
      match String.compare pl p with
      | Eq => (p, n + 1) :: rest
      | Lt => (pl, 1) :: (p, n) :: rest
      | Gt => (p, n) :: tally pl rest
      end
  end.

(** [SELECT plan, COUNT( * ) as count FROM licenses WHERE status = 'active'
    GROUP BY plan] *)
Definition countByPlan (db : database) : list (string * Z) :=
  fold_left (fun groups l => tally (plan l) groups)
    (filter (fun l => String.eqb (status l) "active") (licenses db)) [].

Record stats : Type := mkStats {
  total : Z;
  active : Z;
  expired : Z;
  revoked : Z;
  byPlan : list (string * Z)
}.

Definition getStats (db : database) : stats * database :=
  (mkStats (Z.of_nat (List.length (licenses db)))
           (countStatus "active" db) (countStatus "expired" db)
           (countStatus "revoked" db) (countByPlan db),
   db).

(** ** The routes ([routes/licenses.js]) and their middleware
    ([middleware/auth.js]) *)

(** [jwt.verify(token, config.jwtSecret)]: the decoded payload, [None] when
    it throws. *)
Class JsonWebToken : Type := {
  jwt_verify : string -> option value
}.

(** What the middleware reads of a request: [req.cookies.token] and
    [req.headers.authorization], [None] when absent.  Both are strings, as
    a cookie and a header are on the wire. *)
Record credentials : Type := mkCredentials {
  cookie_token : option string;
  authorization : option string
}.

(** The body of a response, by the object it carries. *)
Inductive reply : Type :=
| ErrorReply (error : string)
| ValidationReply (r : result)
| LicenseReply (l : license)
| CreatedReply (c : created_license)
| SuccessReply (message : string).

Record response : Type := mkResponse {
  statusCode : Z;
  body : reply
}.

(** A string that is absent or empty is falsy. *)
Definition present (s : option string) : option string :=
  match s with
  | Some "" | None => None
  | Some v => Some v
  end.

(** The routes of [routes/licenses.js], each as the response it sends and
    the database it leaves.  The fields of a body are strings (numbers for
    [maxMachines]) or absent.  The path parameter [:id] is the integer its
    text denotes: SQLite compares the text with the [INTEGER] column after
    converting it, and a text that denotes no integer equals no id. *)
Section Routes.

Context {crypto : NodeCrypto} {jwt : JsonWebToken}.

(** [authMiddleware(req, res, next)]: the response it sends ([inl]), or the
    decoded user with which [next()] is called ([inr]). *)
Definition authMiddleware (c : credentials) : response + value :=
  let token := present (cookie_token c) in
  let token :=
    match token, present (authorization c) with
    | None, Some authHeader =>
        if startsWith authHeader "Bearer "
        then present (Some (sliceFrom authHeader 7))
        else None
    | _, _ => token
    end in
  match token with
  | None => inl (mkResponse 401 (ErrorReply "Authentication required"))
  | Some token =>
      match jwt_verify token with
      | Some decoded => inr decoded
      | None => inl (mkResponse 401 (ErrorReply "Invalid or expired token"))
      end
  end.

(** A route declared with [authMiddleware] before its handler. *)
Definition authenticated (c : credentials)
    (handler : database -> response * database) (db : database)
  : response * database :=
  match authMiddleware c with
  | inl denied => (denied, db)
  | inr _ => handler db
  end.

(** [POST /api/licenses/validate], public. *)
Definition postValidate (e : env) (k machineId : option string)
    (db : database) : response * database :=
  match present k, present machineId with
  | Some k, Some machineId =>
      let '(r, db') := validateLicense e k machineId db in
      (mkResponse 200 (ValidationReply r), db')
  | _, _ =>
      (mkResponse 400
         (ValidationReply (invalid "Key and machine ID are required")), db)
  end.

(** [GET /api/licenses/:id] *)
Definition getLicense (c : credentials) (i : Z)
  : database -> response * database :=
  authenticated c (fun db =>
    match getLicenseById i db with
    | (None, db') => (mkResponse 404 (ErrorReply "License not found"), db')
    | (Some l, db') => (mkResponse 200 (LicenseReply l), db')
    end).

(** [POST /api/licenses], with the fields [email], [plan] and [maxMachines]
    of the body, [None] when absent; an exception of the handler reaches
    the error handling middleware of the server, which answers 500. *)
Definition postLicense (e : env) (c : credentials)
    (email plan : option string) (maxMachines : option Z)
  : database -> response * database :=
  authenticated c (fun db =>
    match present plan with
    | None => (mkResponse 400 (ErrorReply "Plan is required"), db)
    | Some pl =>
        if negb (existsb (String.eqb pl) ["monthly"; "annual"; "lifetime"])
        then (mkResponse 400 (ErrorReply "Invalid plan type"), db)
        else
          match createLicense e (mkData email pl maxMachines) db with
          | (Return created, db') =>
              (mkResponse 201 (CreatedReply created), db')
          | (Throw _, db') =>
              (mkResponse 500 (ErrorReply "Internal server error"), db')
          end
    end).

(** [PUT /api/licenses/:id] *)
Definition putLicense (c : credentials) (i : Z) (d : license_update)
  : database -> response * database :=
  authenticated c (fun db =>
    match updateLicense i d db with
    | (None, db') => (mkResponse 404 (ErrorReply "License not found"), db')
    | (Some l, db') => (mkResponse 200 (LicenseReply l), db')
    end).

(** [DELETE /api/licenses/:id] *)
Definition deleteLicense (c : credentials) (i : Z)
  : database -> response * database :=
  authenticated c (fun db =>
    match getLicenseById i db with
    | (None, db') => (mkResponse 404 (ErrorReply "License not found"), db')
    | (Some _, db') =>
        let '(_, db'') := revokeLicense i db' in
        (mkResponse 200 (SuccessReply "License revoked"), db'')
    end).

(** [POST /api/licenses/:id/reset-machines] *)
Definition postResetMachines (c : credentials) (i : Z)
  : database -> response * database :=
  authenticated c (fun db =>
    match getLicenseById i db with
    | (None, db') => (mkResponse 404 (ErrorReply "License not found"), db')
    | (Some _, db') =>
        let '(_, db'') := resetMachines i db' in
        (mkResponse 200 (SuccessReply "Machine bindings reset"), db'')
    end).

End Routes.

(** ** More definitions for the statements *)

(** The constraints SQLite keeps on the tables: [key TEXT UNIQUE],
    [id INTEGER PRIMARY KEY AUTOINCREMENT] (no id above the last one given
    out) and the foreign key of the activation log. *)
Definition constraints (db : database) : Prop :=
  NoDup (map key (licenses db))
  /\ NoDup (map id (licenses db))
  /\ (forall l, In l (licenses db) -> id l <= licenses_seq db)
  /\ (forall a, In a (activation_logs db) ->
        exists l, In l (licenses db) /\ id l = license_id a).

(** The years [toISOString] writes on four digits. *)
Definition fourDigitYear (t : Z) : Prop := 0 <= YearFromTime t <= 9999.

(** The contract of LocalTZA: the offset of a time zone is less than a
    day. *)
Definition offsetsWithinADay (e : env) : Prop :=
  forall t isUTC, Z.abs (LocalTZA e t isUTC) < msPerDay.

(** By how much the offset of the zone now exceeds the one by which the
    local time [days] days from now is read: 0 when the two offsets are
    the same, as on a server without daylight saving. *)
Definition offsetChange (e : env) (days : Z) : Z :=
  LocalTZA e (Date_now e) true
  - LocalTZA e (LocalTime (LocalTZA e) (Date_now e) + days * msPerDay) false.

(** better-sqlite3 hands an INTEGER column over as a JavaScript number, a
    double: the integers up to 2^53 in absolute value are handed over as
    they are stored, a larger one may be rounded. *)
Definition safeInteger (n : Z) : Prop := Z.abs n <= 2 ^ 53.

(** The integers of the [licenses] table — the ids, the next id and the
    [max_machines] — are read as they are stored. *)
Definition safeIntegers (db : database) : Prop :=
  safeInteger (licenses_seq db + 1)
  /\ forall l, In l (licenses db) ->
       safeInteger (id l) /\ safeInteger (max_machines l).

(** The view of a stored license that [validateLicense] returns, for a
    row whose integers are read as they are stored ([safeInteger]). *)
Definition publicView (l : license) : public_license :=
  mkPublic (key l) (plan l) (expires_at l)
           (Z.of_nat (List.length (parseMachines l))) (max_machines l).


Section TokenStatements.

Context {crypto : NodeCrypto}.

(** The token made at [e] for machine [m] of [l] verifies as valid at
    [e'], its data being returned. *)
Definition valid_token (e' e : env) (l : license) (m : string) : Prop :=
  verifyOfflineToken e' (createOfflineToken e l m)
  = Return (mkResult true None None None (Some (offlineTokenData e l m))).

End TokenStatements.



(** ** A stand-in for [jsonwebtoken]

    One token is accepted, that of the administrator. *)

Module Admin.

Definition user : Js.value :=
  VObj [("id", VNum 1); ("username", VStr "admin")].

Definition tokens : JsonWebToken :=
  {| jwt_verify := fun token =>
                     if String.eqb token "admin-token" then Some user
                     else None |}.

(** A request with the token in the Authorization header. *)
Definition admin : credentials :=
  mkCredentials None (Some "Bearer admin-token").

(** A request without credentials. *)
Definition anonymous : credentials := mkCredentials None None.

End Admin.

(** * Properties *)

(** ** The calendar *)

Lemma allFrom_spec (p : Z -> bool) (count : nat) :
  forall start, allFrom p start count = true ->
  forall i, start <= i < start + Z.of_nat count -> p i = true.
Proof.
  induction count as [|n IH]; intros start H i Hi.
  - lia.
  - cbn [allFrom] in H. apply andb_true_iff in H as [H0 H1].
    destruct (Z.eq_dec i start) as [->|Hne]; [assumption|].
    apply (IH (start + 1) H1). lia.
Qed.

Lemma DayFromYear_period (y q : Z) :
  DayFromYear (y + 400 * q) = DayFromYear y + daysPer400Years * q.
Proof.
  unfold DayFromYear, daysPer400Years.
  replace (y + 400 * q - 1969) with (y - 1969 + (100 * q) * 4) by ring.
  replace (y + 400 * q - 1901) with (y - 1901 + (4 * q) * 100) by ring.
  replace (y + 400 * q - 1601) with (y - 1601 + q * 400) by ring.
  rewrite !Z.div_add by lia. ring.
Qed.

Lemma InLeapYear_period (y q : Z) :
  InLeapYear (y + 400 * q) = InLeapYear y.
Proof.
  unfold InLeapYear.
  replace (y + 400 * q) with (y + (100 * q) * 4) at 1 by ring.
  replace (y + 400 * q) with (y + (4 * q) * 100) at 1 by ring.
  replace (y + 400 * q) with (y + q * 400) by ring.
  rewrite !Z.mod_add by lia. reflexivity.
Qed.

Lemma first_400_years_checked :
  allFrom inItsYear 0 (Z.to_nat 146097) = true.
Proof. vm_compute. reflexivity. Qed.

Lemma YearFromDay_period (d q : Z) :
  YearFromDay (d + daysPer400Years * q) = YearFromDay d + 400 * q.
Proof.
  unfold YearFromDay.
  replace (d + daysPer400Years * q - dayOf2000)
    with (d - dayOf2000 + q * daysPer400Years) by ring.
  rewrite Z.div_add, Z.mod_add by (unfold daysPer400Years; lia).
  ring.
Qed.

(** YearFromTime is the year ECMAScript defines: the one whose days hold
    the day. *)
Lemma YearFromDay_spec (d : Z) :
  DayFromYear (YearFromDay d) <= d < DayFromYear (YearFromDay d + 1).
Proof.
  pose (q := (d - dayOf2000) / daysPer400Years).
  pose (r := (d - dayOf2000) mod daysPer400Years).
  assert (Hr : 0 <= r < 146097)
    by (apply Z.mod_pos_bound; unfold daysPer400Years; lia).
  assert (Hd : d = r + dayOf2000 + daysPer400Years * q).
  { unfold q, r.
    pose proof (Z.div_mod (d - dayOf2000) daysPer400Years
                  ltac:(unfold daysPer400Years; lia)) as E.
    lia. }
  pose proof (allFrom_spec inItsYear _ 0 first_400_years_checked r) as Hc.
  unfold inItsYear in Hc. cbv zeta in Hc.
  specialize (Hc ltac:(rewrite Z2Nat.id; lia)).
  apply andb_true_iff in Hc as [Hlo Hhi].
  apply Z.leb_le in Hlo. apply Z.ltb_lt in Hhi.
  clearbody q r. subst d.
  rewrite YearFromDay_period.
  replace (YearFromDay (r + dayOf2000) + 400 * q + 1)
    with (YearFromDay (r + dayOf2000) + 1 + 400 * q) by ring.
  rewrite !DayFromYear_period. lia.
Qed.

Lemma DaysInYear_spec (y : Z) :
  DayFromYear (y + 1) - DayFromYear y = DaysInYear y.
Proof.
  unfold DayFromYear, DaysInYear, InLeapYear.
  destruct (Z.eqb_spec (y mod 4) 0), (Z.eqb_spec (y mod 100) 0),
    (Z.eqb_spec (y mod 400) 0); cbn [andb orb negb];
    Z.div_mod_to_equations; lia.
Qed.

Lemma yearsInDays_period (n y q : Z) (early : bool) :
  yearsInDays n (y + 400 * q) early = yearsInDays n y early.
Proof.
  unfold yearsInDays.
  replace (y + 400 * q + n) with (y + n + 400 * q) by ring.
  rewrite !DayFromYear_period, !InLeapYear_period. ring.
Qed.

(** A property of years that the calendar's period preserves holds of every
    year once it holds of 0..399. *)
Lemma by_residue (P : Z -> bool) :
  (forall y q, P (y + 400 * q) = P y) ->
  allFrom P 0 400 = true -> forall y, P y = true.
Proof.
  intros Hper Hall y.
  rewrite (Z.div_mod y 400) by lia.
  rewrite Z.add_comm, Hper.
  apply (allFrom_spec P _ 0 Hall).
  pose proof (Z.mod_pos_bound y 400). lia.
Qed.

Lemma one_year_in_days (y : Z) (early : bool) :
  365 <= yearsInDays 1 y early <= 366.
Proof.
  pose (P := fun y => (365 <=? yearsInDays 1 y early)
                      && (yearsInDays 1 y early <=? 366)).
  assert (H : P y = true).
  { apply by_residue.
    - intros; unfold P; now rewrite yearsInDays_period.
    - destruct early; vm_compute; reflexivity. }
  unfold P in H. apply andb_true_iff in H as [H1 H2].
  apply Z.leb_le in H1, H2. lia.
Qed.

Lemma hundred_years_in_days (y : Z) (early : bool) :
  36524 <= yearsInDays 100 y early <= 36525.
Proof.
  pose (P := fun y => (36524 <=? yearsInDays 100 y early)
                      && (yearsInDays 100 y early <=? 36525)).
  assert (H : P y = true).
  { apply by_residue.
    - intros; unfold P; now rewrite yearsInDays_period.
    - destruct early; vm_compute; reflexivity. }
  unfold P in H. apply andb_true_iff in H as [H1 H2].
  apply Z.leb_le in H1, H2. lia.
Qed.

Lemma MonthFromTime_range (t : Z) : 0 <= MonthFromTime t <= 11.
Proof.
  unfold MonthFromTime. cbv zeta.
  repeat match goal with
         | |- context [if ?b then _ else _] => destruct b
         end; lia.
Qed.

(** The day of a time value is the day MakeDay gives for its fields. *)
Lemma Day_fields (t : Z) :
  Day t = MakeDay (YearFromTime t) (MonthFromTime t) (DateFromTime t).
Proof.
  pose proof (MonthFromTime_range t) as Hm.
  unfold MakeDay, DateFromTime, DayWithinYear. cbv zeta.
  rewrite Z.div_small, Z.mod_small by lia.
  rewrite Z.add_0_r. lia.
Qed.

Lemma time_split (t : Z) : t = MakeDate (Day t) (TimeWithinDay t).
Proof.
  unfold MakeDate, Day, TimeWithinDay.
  pose proof (Z.div_mod t msPerDay ltac:(unfold msPerDay; lia)). lia.
Qed.

(** Evaluates the quotients, remainders and month offsets of numerals. *)
Ltac calendar_numbers :=
  repeat match goal with
         | |- context [Z.modulo ?a 12] =>
             let v := eval vm_compute in (Z.modulo a 12) in
             change (Z.modulo a 12) with v
         | |- context [Z.div ?a 12] =>
             let v := eval vm_compute in (Z.div a 12) in
             change (Z.div a 12) with v
         | |- context [Z.ltb ?a 2] =>
             let v := eval vm_compute in (Z.ltb a 2) in
             change (Z.ltb a 2) with v
         | |- context [daysBeforeMonth true ?m] =>
             let v := eval vm_compute in (daysBeforeMonth true m) in
             change (daysBeforeMonth true m) with v
         | |- context [daysBeforeMonth false ?m] =>
             let v := eval vm_compute in (daysBeforeMonth false m) in
             change (daysBeforeMonth false m) with v
         end.

(** Moving a date to the next month moves it by the length of its month. *)
Lemma month_length (y m dt : Z) :
  0 <= m <= 11 ->
  28 <= MakeDay y (m + 1) dt - MakeDay y m dt <= 31.
Proof.
  intros Hm.
  pose proof (DaysInYear_spec y) as Hy. unfold DaysInYear in Hy.
  unfold MakeDay. cbv zeta.
  assert (Hcases : m = 0 \/ m = 1 \/ m = 2 \/ m = 3 \/ m = 4 \/ m = 5 \/ m = 6
                   \/ m = 7 \/ m = 8 \/ m = 9 \/ m = 10 \/ m = 11) by lia.
  repeat (destruct Hcases as [Hcases|Hcases]; [subst m|]); try subst m;
    calendar_numbers; rewrite ?Z.add_0_r;
    destruct (InLeapYear y); calendar_numbers; lia.
Qed.

Lemma same_month_in_days (y n m dt : Z) :
  0 <= m <= 11 ->
  MakeDay (y + n) m dt - MakeDay y m dt = yearsInDays n y (m <? 2).
Proof.
  intros Hm. unfold MakeDay, yearsInDays. cbv zeta.
  rewrite Z.div_small, Z.mod_small by lia.
  rewrite !Z.add_0_r.
  assert (Hcases : m = 0 \/ m = 1 \/ m = 2 \/ m = 3 \/ m = 4 \/ m = 5 \/ m = 6
                   \/ m = 7 \/ m = 8 \/ m = 9 \/ m = 10 \/ m = 11) by lia.
  repeat (destruct Hcases as [Hcases|Hcases]; [subst m|]); try subst m;
    destruct (InLeapYear (y + n)), (InLeapYear y); calendar_numbers;
    cbv beta iota; lia.
Qed.

(** [now.setMonth(now.getMonth() + 1)]: the same local time, the length
    of the month later. *)
Lemma setMonth_next (tza : Z -> bool -> Z) (t : Z) :
  exists k, 28 <= k <= 31 /\
    setMonth tza t (getMonth tza t + 1)
    = UTC tza (LocalTime tza t + k * msPerDay).
Proof.
  unfold setMonth, getMonth. cbv zeta.
  set (lt := LocalTime tza t).
  pose proof (month_length (YearFromTime lt) (MonthFromTime lt)
                (DateFromTime lt) (MonthFromTime_range lt)) as Hk.
  rewrite <- Day_fields in Hk.
  exists (MakeDay (YearFromTime lt) (MonthFromTime lt + 1) (DateFromTime lt)
          - Day lt).
  split; [exact Hk|]. f_equal.
  pose proof (time_split lt) as Hs. unfold MakeDate in *. lia.
Qed.

(** [now.setFullYear(now.getFullYear() + n)]: the same local time, [n]
    years later. *)
Lemma setFullYear_later (tza : Z -> bool -> Z) (t n : Z) :
  exists early,
    setFullYear tza t (getFullYear tza t + n)
    = UTC tza (LocalTime tza t
               + yearsInDays n (getFullYear tza t) early * msPerDay).
Proof.
  unfold setFullYear, getFullYear. cbv zeta.
  set (lt := LocalTime tza t).
  pose proof (same_month_in_days (YearFromTime lt) n (MonthFromTime lt)
                (DateFromTime lt) (MonthFromTime_range lt)) as Hk.
  rewrite <- Day_fields in Hk.
  exists (MonthFromTime lt <? 2). rewrite <- Hk. f_equal.
  pose proof (time_split lt) as Hs. unfold MakeDate in *. lia.
Qed.

(** ** Expiration *)

(** The instant at which the local clock shows the time of now, [days]
    days later. *)
Lemma days_later (e : env) (days : Z) :
  UTC (LocalTZA e) (LocalTime (LocalTZA e) (Date_now e) + days * msPerDay)
  = Date_now e + days * msPerDay + offsetChange e days.
Proof. unfold UTC, offsetChange, LocalTime. lia. Qed.


Lemma offsetChange_bound (e : env) (days : Z) :
  offsetsWithinADay e ->
  - 2 * msPerDay < offsetChange e days < 2 * msPerDay.
Proof.
  intros H. unfold offsetChange.
  pose proof (H (Date_now e) true).
  pose proof (H (LocalTime (LocalTZA e) (Date_now e) + days * msPerDay)
                false).
  lia.
Qed.

Lemma monthly_in_days (e : env) :
  exists k, 28 <= k <= 31 /\
    calculateExpiration e "monthly"
    = toISOString (Date_now e + k * msPerDay + offsetChange e k).
Proof.
  destruct (setMonth_next (LocalTZA e) (Date_now e)) as [k [Hk E]].
  exists k. split; [exact Hk|].
  unfold calculateExpiration. cbn [String.eqb Ascii.eqb Bool.eqb].
  cbv zeta. now rewrite E, days_later.
Qed.

Lemma annual_in_days (e : env) :
  exists k, 365 <= k <= 366 /\
    calculateExpiration e "annual"
    = toISOString (Date_now e + k * msPerDay + offsetChange e k).
Proof.
  destruct (setFullYear_later (LocalTZA e) (Date_now e) 1) as [early E].
  exists (yearsInDays 1 (getFullYear (LocalTZA e) (Date_now e)) early).
  split; [apply one_year_in_days|].
  unfold calculateExpiration. cbn [String.eqb Ascii.eqb Bool.eqb].
  cbv zeta. now rewrite E, days_later.
Qed.

Lemma lifetime_in_days (e : env) :
  exists k, 36524 <= k <= 36525 /\
    calculateExpiration e "lifetime"
    = toISOString (Date_now e + k * msPerDay + offsetChange e k).
Proof.
  destruct (setFullYear_later (LocalTZA e) (Date_now e) 100) as [early E].
  exists (yearsInDays 100 (getFullYear (LocalTZA e) (Date_now e)) early).
  split; [apply hundred_years_in_days|].
  unfold calculateExpiration. cbn [String.eqb Ascii.eqb Bool.eqb].
  cbv zeta. now rewrite E, days_later.
Qed.

(** Whatever the plan, the expiry is the local time of now 28 to 36525
    days later: a plan the [switch] does not know is a monthly one. *)
Lemma expiration_in_days (e : env) (pl : string) :
  exists days, 28 <= days <= 36525
    /\ calculateExpiration e pl
       = toISOString (Date_now e + days * msPerDay + offsetChange e days).
Proof.
  destruct (String.eqb pl "monthly") eqn:E1.
  { apply String.eqb_eq in E1 as ->.
    destruct (monthly_in_days e) as (k & H & E).
    exists k; split; [lia|exact E]. }
  destruct (String.eqb pl "annual") eqn:E2.
  { apply String.eqb_eq in E2 as ->.
    destruct (annual_in_days e) as (k & H & E).
    exists k; split; [lia|exact E]. }
  destruct (String.eqb pl "lifetime") eqn:E3.
  { apply String.eqb_eq in E3 as ->.
    destruct (lifetime_in_days e) as (k & H & E).
    exists k; split; [lia|exact E]. }
  destruct (setMonth_next (LocalTZA e) (Date_now e)) as [k [Hk E]].
  exists k. split; [lia|].
  unfold calculateExpiration. rewrite E1, E2, E3. cbv zeta.
  now rewrite E, days_later.
Qed.

(** ** Strings *)

Lemma length_append (a b : string) :
  String.length (a ++ b) = (String.length a + String.length b)%nat.
Proof. induction a as [|c a IH]; cbn; [reflexivity|now rewrite IH]. Qed.

Lemma append_assoc (a b c : string) : (a ++ b) ++ c = a ++ (b ++ c).
Proof. induction a as [|x a IH]; cbn; [reflexivity|now rewrite IH]. Qed.

Lemma substring_whole (s : string) : substring 0 (String.length s) s = s.
Proof. induction s as [|c s IH]; cbn; [reflexivity|now rewrite IH]. Qed.

Lemma substring_head (a b : string) :
  substring 0 (String.length a) (a ++ b) = a.
Proof.
  induction a as [|c a IH]; cbn.
  - now destruct b.
  - now rewrite IH.
Qed.

Lemma substring_skip (a b : string) (n : nat) :
  substring (String.length a) n (a ++ b) = substring 0 n b.
Proof. induction a as [|c a IH]; cbn; [reflexivity|exact IH]. Qed.

Lemma substring_head_of (a b : string) (n : nat) :
  String.length a = n -> substring 0 n (a ++ b) = a.
Proof. intros <-. apply substring_head. Qed.

Lemma substring_from (p r : string) (n k : nat) :
  substring (String.length p + n) k (p ++ r) = substring n k r.
Proof. induction p as [|c p IH]; cbn; [reflexivity|exact IH]. Qed.

Lemma charIs_from (c : ascii) (p r : string) (n : nat) :
  charIs c (p ++ r) (String.length p + n) = charIs c r n.
Proof.
  unfold charIs. induction p as [|a p IH]; cbn; [reflexivity|exact IH].
Qed.

(** ** Dates written and read back *)

Lemma digitValue_digit (n : Z) : digitValue (digit n) = Some (n mod 10).
Proof.
  unfold digitValue, digit.
  pose proof (Z.mod_pos_bound n 10 ltac:(lia)) as Hn.
  rewrite nat_ascii_embedding by lia.
  rewrite Nat2Z.inj_add, Z2Nat.id by lia.
  cbv zeta.
  destruct (Z.leb_spec 48 (Z.of_nat 48 + n mod 10)); [|lia].
  destruct (Z.leb_spec (Z.of_nat 48 + n mod 10) 57); [|lia].
  cbn [andb]. f_equal. lia.
Qed.

Lemma number_app (a b : string) :
  forall acc,
    number acc (a ++ b)
    = match number acc a with Some v => number v b | None => None end.
Proof.
  induction a as [|c a IH]; intros acc; cbn; [reflexivity|].
  destruct (digitValue c); [apply IH|reflexivity].
Qed.

Lemma number_pad (w : nat) :
  forall n acc, 0 <= n ->
    number acc (pad w n) = Some (acc * 10 ^ Z.of_nat w + n mod 10 ^ Z.of_nat w).
Proof.
  induction w as [|w IH]; intros n acc Hn.
  - cbn. rewrite Z.mod_1_r. f_equal. lia.
  - cbn [pad]. rewrite number_app, IH by (apply Z.div_pos; lia).
    cbn [number]. rewrite digitValue_digit. f_equal.
    rewrite Nat2Z.inj_succ, Z.pow_succ_r by lia.
    rewrite (Z.rem_mul_r n 10 (10 ^ Z.of_nat w)) by lia.
    ring.
Qed.

Lemma length_pad (w : nat) : forall n, String.length (pad w n) = w.
Proof.
  induction w as [|w IH]; intros n; cbn [pad]; [reflexivity|].
  rewrite length_append, IH. cbn. lia.
Qed.

(** The fields are read where they stand, whatever stands before them. *)
Lemma fieldsFrom_skip (p r : string) (o : nat) (year : option Z) :
  String.length p = o -> fieldsFrom o year (p ++ r) = fieldsFrom 0 year r.
Proof.
  intros <-. unfold fieldsFrom.
  rewrite <- (Nat.add_0_r (String.length p)) at 1.
  rewrite !charIs_from, !substring_from. reflexivity.
Qed.

(** The places of the fields in a text of the form of [toISOString],
    after the year. *)
Lemma iso_fields (M D H Mi S Ms : string) :
  String.length M = 2%nat -> String.length D = 2%nat ->
  String.length H = 2%nat -> String.length Mi = 2%nat ->
  String.length S = 2%nat -> String.length Ms = 3%nat ->
  let s := "-" ++ M ++ "-" ++ D ++ "T" ++ H ++ ":" ++ Mi ++ ":" ++ S
             ++ "." ++ Ms ++ "Z" in
  String.length s = 20%nat
  /\ charIs "-" s 0 && charIs "-" s 3 && charIs "T" s 6 && charIs ":" s 9
     && charIs ":" s 12 && charIs "." s 15 && charIs "Z" s 19 = true
  /\ substring 1 2 s = M /\ substring 4 2 s = D
  /\ substring 7 2 s = H /\ substring 10 2 s = Mi
  /\ substring 13 2 s = S /\ substring 16 3 s = Ms.
Proof.
  intros HM HD HH HMi HS HMs.
  destruct M as [|m1 [|m2 [|]]]; try discriminate HM.
  destruct D as [|d1 [|d2 [|]]]; try discriminate HD.
  destruct H as [|h1 [|h2 [|]]]; try discriminate HH.
  destruct Mi as [|i1 [|i2 [|]]]; try discriminate HMi.
  destruct S as [|s1 [|s2 [|]]]; try discriminate HS.
  destruct Ms as [|l1 [|l2 [|l3 [|]]]]; try discriminate HMs.
  cbn. repeat split.
Qed.

Lemma fieldsFrom_written (y mo d h mi s ms : Z) :
  1 <= mo <= 12 -> 1 <= d <= 31 -> 0 <= h <= 23 ->
  0 <= mi <= 59 -> 0 <= s <= 59 -> 0 <= ms <= 999 ->
  let text := "-" ++ pad 2 mo ++ "-" ++ pad 2 d ++ "T" ++ pad 2 h ++ ":"
                ++ pad 2 mi ++ ":" ++ pad 2 s ++ "." ++ pad 3 ms ++ "Z" in
  String.length text = 20%nat
  /\ fieldsFrom 0 (Some y) text
     = Some (MakeDate (MakeDay y (mo - 1) d) (MakeTime h mi s ms)).
Proof.
  intros Hmo Hd Hh Hmi Hs Hms text.
  destruct (iso_fields (pad 2 mo) (pad 2 d) (pad 2 h) (pad 2 mi)
              (pad 2 s) (pad 3 ms))
    as (Hlen & Hshape & HM & HD & HH & HMi & HS & HMs);
    try apply length_pad.
  fold text in Hlen, Hshape, HM, HD, HH, HMi, HS, HMs.
  split; [exact Hlen|].
  unfold fieldsFrom. cbn [Nat.add].
  rewrite Hshape, HM, HD, HH, HMi, HS, HMs.
  rewrite !number_pad by lia.
  change (10 ^ Z.of_nat 2) with 100. change (10 ^ Z.of_nat 3) with 1000.
  rewrite !Z.mul_0_l, !Z.add_0_l, !Z.mod_small by lia.
  repeat match goal with
         | |- context [?a <=? ?b] =>
             destruct (Z.leb_spec a b); [|lia]
         end.
  reflexivity.
Qed.

Lemma DayWithinYear_range (t : Z) :
  0 <= DayWithinYear t < DaysInYear (YearFromTime t).
Proof.
  unfold DayWithinYear, YearFromTime.
  pose proof (YearFromDay_spec (Day t)) as H.
  pose proof (DaysInYear_spec (YearFromDay (Day t))). lia.
Qed.

Lemma DateFromTime_range (t : Z) : 1 <= DateFromTime t <= 31.
Proof.
  pose proof (DayWithinYear_range t) as H.
  unfold DateFromTime, MonthFromTime, DaysInYear in *. cbv zeta.
  generalize dependent (DayWithinYear t). intros d H.
  destruct (InLeapYear (YearFromTime t));
    repeat match goal with
           | |- context [if ?a <? ?b then _ else _] =>
               destruct (Z.ltb_spec a b)
           end;
    calendar_numbers; lia.
Qed.

Lemma time_fields (t : Z) :
  MakeTime (HourFromTime t) (MinFromTime t) (SecFromTime t) (msFromTime t)
  = TimeWithinDay t
  /\ 0 <= HourFromTime t <= 23 /\ 0 <= MinFromTime t <= 59
  /\ 0 <= SecFromTime t <= 59 /\ 0 <= msFromTime t <= 999.
Proof.
  unfold MakeTime, HourFromTime, MinFromTime, SecFromTime, msFromTime,
    TimeWithinDay, msPerHour, msPerMinute, msPerSecond, msPerDay.
  Z.div_mod_to_equations. lia.
Qed.

Lemma DayFromYear_mono (y y' : Z) :
  y <= y' -> DayFromYear y <= DayFromYear y'.
Proof.
  intros H. unfold DayFromYear. Z.div_mod_to_equations. lia.
Qed.

(** The years of the instants from 0000-01-01 on, up to the last time
    value. *)
Lemma YearFromTime_range (t : Z) :
  -62167219200000 <= t <= 8640000000000000 ->
  0 <= YearFromTime t <= 999999.
Proof.
  intros Ht. unfold YearFromTime.
  pose proof (YearFromDay_spec (Day t)) as Hy.
  assert (Hd : DayFromYear 0 <= Day t < DayFromYear 1000000).
  { unfold Day, msPerDay. change (DayFromYear 0) with (-719528).
    change (DayFromYear 1000000) with 364522972.
    Z.div_mod_to_equations. lia. }
  split.
  - destruct (Z.le_gt_cases 0 (YearFromDay (Day t))) as [|Hlt]; [assumption|].
    pose proof (DayFromYear_mono (YearFromDay (Day t) + 1) 0 ltac:(lia)).
    lia.
  - destruct (Z.le_gt_cases (YearFromDay (Day t)) 999999) as [|Hgt];
      [assumption|].
    pose proof (DayFromYear_mono 1000000 (YearFromDay (Day t)) ltac:(lia)).
    lia.
Qed.

(** The instants from 0000-01-01 to 9999-12-31 have a year of four
    digits. *)
Lemma fourDigitYear_range (t : Z) :
  -62167219200000 <= t < 253402300800000 -> fourDigitYear t.
Proof.
  intros Ht. unfold fourDigitYear, YearFromTime.
  pose proof (YearFromDay_spec (Day t)) as Hy.
  assert (Hd : DayFromYear 0 <= Day t < DayFromYear 10000).
  { unfold Day, msPerDay. change (DayFromYear 0) with (-719528).
    change (DayFromYear 10000) with 2932897.
    Z.div_mod_to_equations. lia. }
  split.
  - destruct (Z.le_gt_cases 0 (YearFromDay (Day t))) as [|Hlt]; [assumption|].
    pose proof (DayFromYear_mono (YearFromDay (Day t) + 1) 0 ltac:(lia)).
    lia.
  - destruct (Z.le_gt_cases (YearFromDay (Day t)) 9999) as [|Hgt];
      [assumption|].
    pose proof (DayFromYear_mono 10000 (YearFromDay (Day t)) ltac:(lia)).
    lia.
Qed.

(** The text [toISOString] writes is read back as the same instant, by
    [parseISO] and so by every engine. *)
Lemma parseISO_toISOString (t : Z) :
  -62167219200000 <= t <= 8640000000000000 ->
  parseISO (toISOString t) = Some t.
Proof.
  intros Ht.
  pose proof (YearFromTime_range t Ht) as Hy.
  pose proof (MonthFromTime_range t) as Hm.
  pose proof (DateFromTime_range t) as Hd.
  destruct (time_fields t) as (Htime & Hh & Hmi & Hs & Hms).
  destruct (fieldsFrom_written (YearFromTime t) (MonthFromTime t + 1)
              (DateFromTime t) (HourFromTime t) (MinFromTime t)
              (SecFromTime t) (msFromTime t))
    as (Hlen & Hfields); try lia.
  cbv zeta in Hlen, Hfields.
  replace (MonthFromTime t + 1 - 1) with (MonthFromTime t) in Hfields by lia.
  rewrite <- Day_fields, Htime, <- time_split in Hfields.
  unfold toISOString.
  match type of Hlen with String.length ?x = _ => set (tail := x) in * end.
  unfold yearText, parseISO.
  destruct ((0 <=? YearFromTime t) && (YearFromTime t <=? 9999)) eqn:Hfour.
  - apply andb_true_iff in Hfour as [H0 H9].
    apply Z.leb_le in H0, H9.
    rewrite length_append, length_pad, Hlen. cbn [Nat.add Nat.eqb].
    rewrite (substring_head_of _ _ 4 (length_pad 4 _)).
    rewrite (fieldsFrom_skip _ _ 4 _ (length_pad 4 _)).
    rewrite number_pad by lia.
    change (10 ^ Z.of_nat 4) with 10000.
    rewrite Z.mul_0_l, Z.add_0_l, Z.mod_small by lia.
    exact Hfields.
  - assert (H9 : 9999 < YearFromTime t).
    { apply andb_false_iff in Hfour as [H|H];
        [apply Z.leb_gt in H|apply Z.leb_gt in H]; lia. }
    destruct (Z.ltb_spec (YearFromTime t) 0); [lia|].
    rewrite Z.abs_eq by lia.
    rewrite append_assoc. cbn [append].
    cbn [String.length]. rewrite length_append, length_pad, Hlen.
    cbn [Nat.add Nat.eqb andb charIs String.get Ascii.eqb Bool.eqb
         substring].
    rewrite (substring_head_of _ _ 6 (length_pad 6 _)).
    change (String "+" (pad 6 (YearFromTime t) ++ ?r))
      with (("+" ++ pad 6 (YearFromTime t)) ++ r).
    rewrite (fieldsFrom_skip ("+" ++ pad 6 (YearFromTime t)) _ 7).
    + rewrite number_pad by lia.
      change (10 ^ Z.of_nat 6) with 1000000.
      rewrite Z.mul_0_l, Z.add_0_l, Z.mod_small by lia.
      rewrite Hfields. cbn [TimeClip].
      destruct (Z.leb_spec (Z.abs t) 8640000000000000); [reflexivity|lia].
    + cbn [append String.length]. now rewrite length_pad.
Qed.

Lemma Date_parse_toISOString (other : string -> option Z) (t : Z) :
  -62167219200000 <= t <= 8640000000000000 ->
  Date_parse other (toISOString t) = Some t.
Proof.
  intros Ht. unfold Date_parse. now rewrite parseISO_toISOString.
Qed.

(** For a clock between the years 0000 and 9899 and a zone whose offsets
    are within a day, every expiry is read back as the instant it is:
    more than 26 days and less than 36527 days after now. *)
Lemma expiration_parses (e : env) (other : string -> option Z)
    (pl : string) :
  -62167219200000 <= Date_now e < 250246540800000 ->
  offsetsWithinADay e ->
  exists days t,
    28 <= days <= 36525
    /\ t = Date_now e + days * msPerDay + offsetChange e days
    /\ Date_parse other (calculateExpiration e pl) = Some t
    /\ Date_now e + 26 * msPerDay < t < Date_now e + 36527 * msPerDay.
Proof.
  intros Hnow Hzone.
  destruct (expiration_in_days e pl) as (k & Hk & ->).
  pose proof (offsetChange_bound e k Hzone) as Hc.
  exists k, (Date_now e + k * msPerDay + offsetChange e k).
  split; [exact Hk|]. split; [reflexivity|]. split.
  - apply Date_parse_toISOString. unfold msPerDay in *. lia.
  - unfold msPerDay in *. lia.
Qed.

(** ** Rows and tables *)

Section Rows.

Context {A : Type} (p : A -> bool).

Lemma find_none_existsb (l : list A) :
  existsb p l = false -> find p l = None.
Proof.
  induction l as [|x l IH]; cbn; [reflexivity|].
  destruct (p x); cbn; [discriminate|exact IH].
Qed.

Lemma find_some_existsb (l : list A) (x : A) :
  find p l = Some x -> existsb p l = true.
Proof.
  intros H. apply existsb_exists. exists x.
  now apply find_some in H.
Qed.

Lemma existsb_find_none (l : list A) :
  find p l = None -> existsb p l = false.
Proof.
  induction l as [|x l IH]; cbn; [reflexivity|].
  destruct (p x); cbn; [discriminate|exact IH].
Qed.

Lemma find_app (l1 l2 : list A) :
  find p (l1 ++ l2)
  = match find p l1 with Some x => Some x | None => find p l2 end.
Proof.
  induction l1 as [|x l1 IH]; cbn; [reflexivity|].
  destruct (p x); [reflexivity|exact IH].
Qed.

Lemma find_map (f : A -> A) (l : list A) :
  (forall x, p (f x) = p x) ->
  find p (map f l) = option_map f (find p l).
Proof.
  intros Hf. induction l as [|x l IH]; cbn; [reflexivity|].
  rewrite Hf. destruct (p x); [reflexivity|exact IH].
Qed.

Lemma existsb_map (f : A -> A) (l : list A) :
  (forall x, p (f x) = p x) -> existsb p (map f l) = existsb p l.
Proof.
  intros Hf. induction l as [|x l IH]; cbn; [reflexivity|].
  now rewrite Hf, IH.
Qed.

End Rows.

(** The setters leave the key and the id of a row. *)
Lemma validated_key (e : env) (m : string) (l r : license) :
  key (validated e m l r) = key r.
Proof.
  unfold validated.
  repeat match goal with
         | |- context [if ?b then _ else _] => destruct b
         end; reflexivity.
Qed.

Lemma validated_id (e : env) (m : string) (l r : license) :
  id (validated e m l r) = id r.
Proof.
  unfold validated.
  repeat match goal with
         | |- context [if ?b then _ else _] => destruct b
         end; reflexivity.
Qed.

(** ** createLicense *)

Lemma createLicense_fresh (e : env) (d : license_data) (db : database) :
  lookupKey (generateLicenseKey (Math_random e)) db = None ->
  exists row db',
    createLicense e d db
    = (Return (mkCreated (id row) (key row) (data_email d) (data_plan d)
                 (max_machines row) (expires_at row)), db')
    /\ lookupKey (generateLicenseKey (Math_random e)) db' = Some row
    /\ key row = generateLicenseKey (Math_random e)
    /\ plan row = data_plan d
    /\ expires_at row = calculateExpiration e (data_plan d)
    /\ status row = "active"
    /\ machines_used row = Some (MachinesJson []).
Proof.
  intros Hnone. unfold lookupKey in Hnone.
  unfold createLicense, run, bind, insert_license. cbv zeta.
  rewrite (existsb_find_none _ _ Hnone).
  unfold ret. cbv beta iota.
  exists (mkLicense (licenses_seq db + 1)
            (generateLicenseKey (Math_random e)) (emailOrNull (data_email d))
            (data_plan d) (maxMachinesOr1 (data_maxMachines d))
            (Some (MachinesJson [])) "active"
            (CURRENT_TIMESTAMP (Date_now e))
            (calculateExpiration e (data_plan d)) None).
  eexists. split; [reflexivity|].
  unfold lookupKey. cbn [licenses].
  rewrite find_app, Hnone. cbn [find key].
  rewrite String.eqb_refl. repeat split.
Qed.

Lemma createLicense_taken (e : env) (d : license_data) (db : database)
    (l : license) :
  lookupKey (generateLicenseKey (Math_random e)) db = Some l ->
  createLicense e d db = (Throw "SqliteError", db).
Proof.
  intros Hsome. unfold lookupKey in Hsome.
  unfold createLicense, run, bind, insert_license. cbv zeta.
  rewrite (find_some_existsb _ _ _ Hsome).
  reflexivity.
Qed.

(** ** validateLicense on a license that is there *)

Lemma lookupKey_id_exists (k : string) (db : database) (l : license) :
  lookupKey k db = Some l ->
  existsb (fun r => id r =? id l) (licenses db) = true.
Proof.
  intros H. apply find_some in H as [Hin _].
  apply existsb_exists. exists l. split; [exact Hin|apply Z.eqb_refl].
Qed.

(** The rows after the updates of a validation. *)
Lemma validated_rows (e : env) (m : string) (l : license)
    (ls : list license) :
  map (fun r => if id r =? id l
                then set_last_validated (Some (toISOString (Date_now e))) r
                else r)
    (let ls1 :=
       if negb (String.eqb (status l) "active")
       then map (fun r => if id r =? id l then set_status "active" r else r) ls
       else ls in
     let ls2 :=
       if before (Date_parse (otherFormats e) (expires_at l)) (Date_now e)
       then map (fun r => if id r =? id l
                          then set_status "active"
                                 (set_expires_at
                                    (calculateExpiration e "lifetime") r)
                          else r) ls1
       else ls1 in
     if negb (includes (parseMachines l) m)
     then map (fun r => if id r =? id l
                        then set_machines_used
                               (Some (MachinesJson
                                        (parseMachines l ++ [m])%list)) r
                        else r) ls2
     else ls2)
  = map (fun r => if id r =? id l then validated e m l r else r) ls.
Proof.
  unfold validated. cbv zeta.
  destruct (negb (String.eqb (status l) "active")),
    (before (Date_parse (otherFormats e) (expires_at l)) (Date_now e)),
    (negb (includes (parseMachines l) m));
    rewrite ?map_map; apply map_ext; intros r;
    destruct (id r =? id l) eqn:E;
    repeat (cbn [id set_status set_expires_at set_machines_used
                 set_last_validated]; rewrite ?E);
    reflexivity.
Qed.

Lemma validated_keeps_id_test (e : env) (m : string) (l r : license) :
  (id (if id r =? id l then validated e m l r else r) =? id l)
  = (id r =? id l).
Proof.
  destruct (id r =? id l) eqn:E; [|exact E].
  now rewrite validated_id.
Qed.

(** Reads the fields of rows just written. *)
Ltac row_fields :=
  cbv beta iota;
  cbn [id key email plan max_machines machines_used status created_at
       expires_at last_validated set_status set_expires_at
       set_machines_used set_last_validated licenses licenses_seq
       activation_logs activation_logs_seq];
  repeat (progress
            (try change (parseMachines (set_status ?v ?l))
               with (parseMachines l);
             try change (parseMachines (set_expires_at ?v ?l))
               with (parseMachines l))).

(** What a validation leaves in the row it found. *)
Lemma validated_status (e : env) (m : string) (l : license) :
  status (validated e m l l) = "active".
Proof.
  unfold validated.
  destruct (String.eqb_spec (status l) "active") as [E|E];
    destruct (before (Date_parse (otherFormats e) (expires_at l))
                (Date_now e));
    destruct (negb (includes (parseMachines l) m));
    cbn; try reflexivity; exact E.
Qed.

Lemma validated_expires_at (e : env) (m : string) (l : license) :
  expires_at (validated e m l l)
  = if before (Date_parse (otherFormats e) (expires_at l)) (Date_now e)
    then calculateExpiration e "lifetime" else expires_at l.
Proof.
  unfold validated.
  destruct (negb (String.eqb (status l) "active"));
    destruct (before (Date_parse (otherFormats e) (expires_at l))
                (Date_now e));
    destruct (negb (includes (parseMachines l) m));
    reflexivity.
Qed.

Lemma validated_machines (e : env) (m : string) (l : license) :
  parseMachines (validated e m l l)
  = if includes (parseMachines l) m then parseMachines l
    else (parseMachines l ++ [m])%list.
Proof.
  unfold validated.
  destruct (negb (String.eqb (status l) "active"));
    destruct (before (Date_parse (otherFormats e) (expires_at l))
                (Date_now e));
    destruct (includes (parseMachines l) m);
    reflexivity.
Qed.

Lemma validated_machines_used (e : env) (m : string) (l : license) :
  machines_used (validated e m l l)
  = if includes (parseMachines l) m then machines_used l
    else Some (MachinesJson (parseMachines l ++ [m])%list).
Proof.
  unfold validated.
  destruct (negb (String.eqb (status l) "active"));
    destruct (before (Date_parse (otherFormats e) (expires_at l))
                (Date_now e));
    destruct (includes (parseMachines l) m);
    reflexivity.
Qed.

Lemma validated_other_fields (e : env) (m : string) (l r : license) :
  id (validated e m l r) = id r /\ key (validated e m l r) = key r
  /\ email (validated e m l r) = email r /\ plan (validated e m l r) = plan r
  /\ max_machines (validated e m l r) = max_machines r
  /\ created_at (validated e m l r) = created_at r
  /\ last_validated (validated e m l r) = Some (toISOString (Date_now e)).
Proof.
  unfold validated.
  destruct (negb (String.eqb (status l) "active"));
    destruct (before (Date_parse (otherFormats e) (expires_at l))
                (Date_now e));
    destruct (negb (includes (parseMachines l) m));
    repeat split.
Qed.

Lemma includes_app_self (machines : list string) (m : string) :
  includes (machines ++ [m]) m = true.
Proof.
  unfold includes. rewrite existsb_app. cbn.
  rewrite String.eqb_refl. now rewrite orb_true_r.
Qed.

Lemma validated_includes (e : env) (m : string) (l : license) :
  includes (parseMachines (validated e m l l)) m = true.
Proof.
  rewrite validated_machines.
  destruct (includes (parseMachines l) m) eqn:E; [exact E|].
  apply includes_app_self.
Qed.

Lemma includes_In (machines : list string) (m : string) :
  includes machines m = true <-> In m machines.
Proof.
  unfold includes. rewrite existsb_exists. split.
  - intros [x [Hin E]]. apply String.eqb_eq in E. now subst.
  - intros Hin. exists m. split; [exact Hin|apply String.eqb_refl].
Qed.

(** The table after a validation that found [l], read by key. *)
Lemma lookupKey_validated (e : env) (k m : string) (db : database)
    (l : license) (seq : Z) (logs : list activation_log) (lseq : Z) :
  lookupKey k db = Some l ->
  lookupKey k
    (mkDatabase
       (map (fun r => if id r =? id l then validated e m l r else r)
            (licenses db)) seq logs lseq)
  = Some (validated e m l l).
Proof.
  intros H. unfold lookupKey in *. cbn [licenses].
  rewrite find_map.
  - rewrite H. cbn. now rewrite Z.eqb_refl.
  - intros r. destruct (id r =? id l); [|reflexivity].
    now rewrite validated_key.
Qed.

(** Rows with another key are read as before. *)
Lemma lookupKey_validated_other (e : env) (k k' m : string) (db : database)
    (l : license) (seq : Z) (logs : list activation_log) (lseq : Z) :
  lookupKey k'
    (mkDatabase
       (map (fun r => if id r =? id l then validated e m l r else r)
            (licenses db)) seq logs lseq)
  = option_map (fun r => if id r =? id l then validated e m l r else r)
      (lookupKey k' db).
Proof.
  unfold lookupKey. cbn [licenses].
  apply find_map. intros r. destruct (id r =? id l); [|reflexivity].
  now rewrite validated_key.
Qed.

Section Validation.

Context {crypto : NodeCrypto}.

Lemma validateLicense_found (e : env) (k m : string) (db : database)
    (l : license) :
  lookupKey k db = Some l ->
  validateLicense e k m db
  = (mkResult true None
       (Some (mkPublic (key l) (plan l) (expires_at (validated e m l l))
                (Z.of_nat (List.length (parseMachines (validated e m l l))))
                (max_machines l)))
       (Some (createOfflineToken e (validated e m l l) m)) None,
     afterValidation e m l db).
Proof.
  intros Hl.
  pose proof (validated_rows e m l (licenses db)) as Hrows.
  pose proof (lookupKey_id_exists k db l Hl) as Hid.
  unfold lookupKey in Hl.
  unfold validateLicense, afterValidation, entry.
  cbv beta iota delta [run bind ret exit select_license_by_key
    update_license logActivation insert_activation_log with_licenses].
  rewrite Hl. cbv zeta in Hrows. row_fields.
  destruct (negb (String.eqb (status l) "active")) eqn:E1; row_fields;
    (destruct (before (Date_parse (otherFormats e) (expires_at l))
                 (Date_now e)) eqn:E2;
     row_fields;
     (destruct (negb (includes (parseMachines l) m)) eqn:E3; row_fields)).
  all: rewrite Hrows.
  all: rewrite (existsb_map _ _ _ (validated_keeps_id_test e m l)), Hid.
  all: unfold validated, createOfflineToken, offlineTokenData;
    rewrite E1, E2, E3.
  all: row_fields; reflexivity.
Qed.

Lemma startsWith_not_empty (k p : string) :
  p <> "" -> startsWith k p = true -> String.eqb k "" = false.
Proof.
  intros Hp H. destruct k; [|reflexivity].
  destruct p; [congruence|discriminate].
Qed.

Lemma validateLicense_unknown (e : env) (k m : string) (db : database) :
  lookupKey k db = None ->
  startsWith k "RATO-" = false ->
  validateLicense e k m db
  = (invalid "Chave inválida (deve começar com RATO-)", db).
Proof.
  intros Hnone Hp. unfold lookupKey in Hnone.
  unfold validateLicense.
  cbv beta iota delta [run bind ret exit select_license_by_key].
  rewrite Hnone, Hp, andb_false_r. reflexivity.
Qed.

Lemma validateLicense_creates (e : env) (k m : string) (db : database) :
  lookupKey k db = None ->
  startsWith k "RATO-" = true ->
  lookupKey k (inserted e k db) = Some (created e k db)
  /\ validateLicense e k m db = validateLicense e k m (inserted e k db).
Proof.
  intros Hnone Hp.
  assert (Hnew : lookupKey k (inserted e k db) = Some (created e k db)).
  { unfold lookupKey in *. cbn [licenses inserted].
    rewrite find_app, Hnone. cbn [find key created].
    now rewrite String.eqb_refl. }
  split; [exact Hnew|].
  unfold lookupKey in Hnone, Hnew.
  unfold validateLicense.
  cbv beta iota delta [run bind ret exit select_license_by_key
                       insert_license].
  rewrite Hnone, Hp.
  rewrite (startsWith_not_empty k "RATO-") by (discriminate || exact Hp).
  cbn [negb andb]. cbv beta iota zeta.
  rewrite (existsb_find_none _ _ Hnone).
  cbv beta iota zeta.
  fold (created e k db). fold (inserted e k db).
  rewrite Hnew. reflexivity.
Qed.

End Validation.

(** ** The token codec *)

Section CodecFacts.

Context {crypto : NodeCrypto}.

(** decrypt(encrypt(payload)) = payload, for an IV of [IV_LENGTH] bytes
    and a cipher at work. *)
Lemma decrypt_encrypt (e : env) (d : value) :
  String.length (randomBytes e) = (IV_LENGTH * 2)%nat ->
  sealed e d ->
  decryptLicenseData (encryptLicenseData e d) = Some d.
Proof.
  unfold sealed, encryptLicenseData, decryptLicenseData. cbv zeta.
  intros Hiv.
  destruct (cipher getEncryptionKey (randomBytes e) (JSON_stringify d))
    as [encrypted authTag].
  intros [Htag Hopen].
  set (iv := randomBytes e) in *.
  assert (E1 : slice (iv ++ authTag ++ encrypted) 0 (IV_LENGTH * 2) = iv).
  { unfold slice. rewrite Nat.sub_0_r, <- Hiv. apply substring_head. }
  assert (E2 : slice (iv ++ authTag ++ encrypted) (IV_LENGTH * 2)
                 (IV_LENGTH * 2 + AUTH_TAG_LENGTH * 2) = authTag).
  { unfold slice.
    replace (IV_LENGTH * 2 + AUTH_TAG_LENGTH * 2 - IV_LENGTH * 2)%nat
      with (String.length authTag) by (rewrite Htag; lia).
    rewrite <- Hiv, substring_skip. apply substring_head. }
  assert (E3 : sliceFrom (iv ++ authTag ++ encrypted)
                 (IV_LENGTH * 2 + AUTH_TAG_LENGTH * 2) = encrypted).
  { unfold sliceFrom. rewrite !length_append.
    replace (String.length iv + (String.length authTag
               + String.length encrypted)
             - (IV_LENGTH * 2 + AUTH_TAG_LENGTH * 2))%nat
      with (String.length encrypted) by lia.
    rewrite <- Hiv, <- Htag.
    rewrite <- length_append, <- append_assoc, substring_skip.
    apply substring_whole. }
  rewrite E1, E2, E3, Hopen. reflexivity.
Qed.

End CodecFacts.

(** * The claims *)

Section TokenClaims.

Context {crypto : NodeCrypto}.

(** C5.  A token made for a license whose expiry is not in the past
    verifies: for an IV of 16 bytes and a cipher at work on the token's
    data, [verifyOfflineToken (createOfflineToken license machineId)]
    returns valid:true, and the data it returns carry the key of the
    license, the machine identifier and the expiry of the license. *)
Theorem verify_created_token (e e' : env) (l : license) (m : string)
    (t : Z) :
  String.length (randomBytes e) = (IV_LENGTH * 2)%nat ->
  sealed e (offlineTokenData e l m) ->
  Date_parse (otherFormats e') (expires_at l) = Some t ->
  Date_now e' <= t ->
  exists d,
    verifyOfflineToken e' (createOfflineToken e l m)
    = Return (mkResult true None None None (Some d))
    /\ get d "key" = Some (VStr (key l))
    /\ get d "machineId" = Some (VStr m)
    /\ get d "expiresAt" = Some (VStr (expires_at l)).
Proof.
  intros Hiv Hsealed Ht Hfuture.
  exists (offlineTokenData e l m).
  unfold verifyOfflineToken, createOfflineToken. cbv zeta.
  rewrite (decrypt_encrypt e _ Hiv Hsealed).
  unfold offlineTokenData.
  cbn [truthy negb get lookup String.eqb Ascii.eqb Bool.eqb ToPrimitive
       add new_Date].
  rewrite Ht. cbn [before].
  destruct (Z.ltb_spec t (Date_now e')) as [Hlt|_]; [lia|].
  cbn [differs]. rewrite String.eqb_refl. cbn [negb].
  repeat split.
Qed.

(** C6 (amended).  [verifyOfflineToken] applies its checks in this order,
    with the reasons the code gives: a token that does not decrypt, or
    that decrypts to a falsy value (null, false, 0, the empty string), is
    an 'Invalid token'; else data whose [expiresAt] is before now make a
    'License expired', whatever the signature; else, for data whose key,
    machine identifier and expiry are strings, a [validationSignature]
    other than the HMAC of their concatenation makes an 'Invalid
    signature', and the HMAC itself makes the token valid, the data being
    returned. *)
Theorem verifyOfflineToken_order (e : env) (token : string) :
  (decryptLicenseData token = None ->
   verifyOfflineToken e token = Return (invalid "Invalid token"))
  /\ (forall d,
        decryptLicenseData token = Some d -> truthy d = false ->
        verifyOfflineToken e token = Return (invalid "Invalid token"))
  /\ (forall d,
        decryptLicenseData token = Some d -> truthy d = true ->
        before (new_Date (otherFormats e) (get d "expiresAt")) (Date_now e)
        = true ->
        verifyOfflineToken e token = Return (invalid "License expired"))
  /\ (forall d k m x,
        decryptLicenseData token = Some d ->
        get d "key" = Some (VStr k) ->
        get d "machineId" = Some (VStr m) ->
        get d "expiresAt" = Some (VStr x) ->
        before (new_Date (otherFormats e) (get d "expiresAt")) (Date_now e)
        = false ->
        (get d "validationSignature"
         <> Some (VStr (hmac_sha256 config.licenseSecret
                          ((k ++ m) ++ x))) ->
         verifyOfflineToken e token
         = Return (invalid "Invalid signature"))
        /\ (get d "validationSignature"
            = Some (VStr (hmac_sha256 config.licenseSecret
                            ((k ++ m) ++ x))) ->
            verifyOfflineToken e token
            = Return (mkResult true None None None (Some d)))).
Proof.
  unfold verifyOfflineToken. split; [|split; [|split]].
  - intros ->. reflexivity.
  - intros d -> Hfalsy. now rewrite Hfalsy.
  - intros d -> Htruthy Hexp. now rewrite Htruthy, Hexp.
  - intros d k m x -> Hk Hm Hx Hnot.
    assert (Htruthy : truthy d = true)
      by (destruct d; try discriminate; reflexivity).
    rewrite Htruthy, Hnot, Hk, Hm, Hx.
    cbn [negb ToPrimitive add ToString].
    split; intros Hsig.
    + destruct (get d "validationSignature") as [[| | |sig| |]|];
        try reflexivity.
      cbn [differs].
      destruct (String.eqb_spec sig
                  (hmac_sha256 config.licenseSecret ((k ++ m) ++ x)));
        [congruence|reflexivity].
    + rewrite Hsig. cbn [differs]. now rewrite String.eqb_refl.
Qed.

End TokenClaims.

Section LicenseClaims.

Context {crypto : NodeCrypto}.

(** C1 (amended).  The machine limit is not enforced: for a license found
    by its key, whatever its [max_machines], validating a machine that is
    not yet in [machines_used] returns valid:true and appends the machine
    to [machines_used]. *)
Theorem validateLicense_adds_machine (e : env) (k m : string)
    (db : database) (l : license) :
  lookupKey k db = Some l ->
  includes (parseMachines l) m = false ->
  valid (fst (validateLicense e k m db)) = true
  /\ reason (fst (validateLicense e k m db)) = None
  /\ (exists v,
        licenseInfo (fst (validateLicense e k m db)) = Some v
        /\ pub_machinesUsed v
           = Z.of_nat (List.length (parseMachines l)) + 1
        /\ pub_maxMachines v = max_machines l)
  /\ exists l',
       lookupKey k (snd (validateLicense e k m db)) = Some l'
       /\ machines_used l'
          = Some (MachinesJson (parseMachines l ++ [m])%list)
       /\ max_machines l' = max_machines l.
Proof.
  intros Hl Hnew.
  rewrite (validateLicense_found e k m db l Hl). cbn [fst snd valid reason
    licenseInfo].
  split; [reflexivity|]. split; [reflexivity|]. split.
  - eexists. split; [reflexivity|]. cbn [pub_machinesUsed pub_maxMachines].
    rewrite validated_machines, Hnew, length_app. cbn [List.length].
    split; [lia|reflexivity].
  - exists (validated e m l l).
    split; [now apply lookupKey_validated|].
    rewrite validated_machines_used, Hnew.
    split; [reflexivity|apply validated_other_fields].
Qed.

(** [revokeLicense] writes 'revoked' in the row. *)
Lemma lookupKey_revoked (k : string) (db : database) (l : license) :
  lookupKey k db = Some l ->
  lookupKey k (snd (revokeLicense (id l) db))
  = Some (set_status "revoked" l).
Proof.
  intros Hl. unfold revokeLicense, lookupKey in *.
  cbv beta iota delta [run bind ret update_license with_licenses].
  cbn [snd licenses].
  rewrite find_map.
  - rewrite Hl. cbn. now rewrite Z.eqb_refl.
  - intros r. now destruct (id r =? id l).
Qed.

(** C2 (amended).  Revocation does not outlive a validation: after
    [revokeLicense] the status of the license is 'revoked', and the next
    [validateLicense] for its key returns valid:true and writes 'active'
    back. *)
Theorem validateLicense_after_revoke (e : env) (k m : string)
    (db : database) (l : license) :
  lookupKey k db = Some l ->
  let revoked := snd (revokeLicense (id l) db) in
  option_map status (lookupKey k revoked) = Some "revoked"
  /\ valid (fst (validateLicense e k m revoked)) = true
  /\ reason (fst (validateLicense e k m revoked)) = None
  /\ option_map status (lookupKey k (snd (validateLicense e k m revoked)))
     = Some "active".
Proof.
  intros Hl revoked.
  pose proof (lookupKey_revoked k db l Hl) as Hr. fold revoked in Hr.
  rewrite Hr.
  rewrite (validateLicense_found e k m revoked _ Hr).
  cbn [fst snd valid reason option_map status set_status].
  repeat split.
  unfold afterValidation. rewrite (lookupKey_validated e k m revoked _ _ _ _ Hr).
  cbn [option_map]. now rewrite validated_status.
Qed.

(** C3 (amended).  For a key with no license: when the key does not start
    with RATO- the call returns valid:false, with the reason the code
    gives, and leaves the database as it is; when it does, a lifetime
    license for 999 machines is inserted under the key and the call goes
    on to return valid:true. *)
Theorem validateLicense_no_license (e : env) (k m : string)
    (db : database) :
  lookupKey k db = None ->
  (startsWith k "RATO-" = false ->
   validateLicense e k m db
   = (invalid "Chave inválida (deve começar com RATO-)", db))
  /\ (startsWith k "RATO-" = true ->
      valid (fst (validateLicense e k m db)) = true
      /\ exists l',
           lookupKey k (snd (validateLicense e k m db)) = Some l'
           /\ plan l' = "lifetime" /\ max_machines l' = 999
           /\ email l' = Some "bypass@ratoengine.com"
           /\ status l' = "active"
           /\ expires_at l' = calculateExpiration e "lifetime"
           /\ parseMachines l' = [m]).
Proof.
  intros Hnone. split; intros Hp.
  - now apply validateLicense_unknown.
  - destruct (validateLicense_creates e k m db Hnone Hp) as [Hnew ->].
    rewrite (validateLicense_found e k m _ _ Hnew).
    cbn [fst snd valid]. split; [reflexivity|].
    exists (validated e m (created e k db) (created e k db)).
    split; [now apply lookupKey_validated|].
    pose proof (validated_other_fields e m (created e k db)
                  (created e k db)) as (_ & _ & Hmail & Hplan & Hmax & _).
    rewrite Hmail, Hplan, Hmax, validated_status, validated_expires_at,
      validated_machines.
    cbn [created email plan max_machines expires_at].
    repeat split.
    now destruct (before _ _).
Qed.

(** C8.  Validation is idempotent in the machine set: after a validation
    of a machine for a license, a second validation of the same key and
    machine leaves [machines_used] as the first one left it; the machine
    is in it once when it was in it at most once before, and no duplicate
    appears in it when there was none. *)
Theorem validateLicense_idempotent (e1 e2 : env) (k m : string)
    (db : database) (l : license) :
  lookupKey k db = Some l ->
  let db1 := snd (validateLicense e1 k m db) in
  let db2 := snd (validateLicense e2 k m db1) in
  exists l1 l2,
    lookupKey k db1 = Some l1 /\ lookupKey k db2 = Some l2
    /\ parseMachines l2 = parseMachines l1
    /\ ((count_occ string_dec (parseMachines l) m <= 1)%nat ->
        count_occ string_dec (parseMachines l2) m = 1%nat)
    /\ (NoDup (parseMachines l) -> NoDup (parseMachines l2)).
Proof.
  intros Hl db1 db2.
  assert (H1 : lookupKey k db1 = Some (validated e1 m l l)).
  { unfold db1. rewrite (validateLicense_found e1 k m db l Hl).
    now apply lookupKey_validated. }
  assert (H2 : lookupKey k db2
               = Some (validated e2 m (validated e1 m l l)
                         (validated e1 m l l))).
  { unfold db2. rewrite (validateLicense_found e2 k m db1 _ H1).
    now apply lookupKey_validated. }
  exists (validated e1 m l l),
    (validated e2 m (validated e1 m l l) (validated e1 m l l)).
  split; [exact H1|]. split; [exact H2|].
  assert (Hsame : parseMachines
                    (validated e2 m (validated e1 m l l)
                       (validated e1 m l l))
                  = parseMachines (validated e1 m l l)).
  { now rewrite validated_machines, validated_includes. }
  split; [exact Hsame|].
  rewrite Hsame, validated_machines.
  destruct (includes (parseMachines l) m) eqn:Hin.
  - split; [|trivial]. intros Hle.
    apply includes_In in Hin.
    apply (count_occ_In string_dec) in Hin. lia.
  - assert (Hnot : ~ In m (parseMachines l)).
    { intros Hc. apply includes_In in Hc. congruence. }
    split.
    + intros _. rewrite count_occ_app. cbn [count_occ].
      destruct (string_dec m m) as [_|Hne]; [|congruence].
      apply (count_occ_not_In string_dec) in Hnot. lia.
    + intros Hnd. apply NoDup_app; [exact Hnd|repeat constructor; intros []|].
      intros x Hx [<-|[]]. contradiction.
Qed.

End LicenseClaims.

(** ** The key generator *)

Lemma chars_checked :
  allFrom (fun i => match charAt chars i with
                    | String c "" => alnum c
                    | _ => false
                    end) 0 36 = true.
Proof. vm_compute. reflexivity. Qed.

Lemma charAt_chars (i : Z) :
  0 <= i < 36 ->
  exists c, charAt chars i = String c "" /\ alnum c = true.
Proof.
  intros Hi.
  pose proof (allFrom_spec _ _ 0 chars_checked i ltac:(lia)) as H.
  cbv beta in H.
  destruct (charAt chars i) as [|c [|]]; try discriminate.
  now exists c.
Qed.

(** C7.  With [Math.random] in [0, 1), so that every index drawn lies in
    [0, 36), the key generated matches [^RATO(-[A-Z0-9]{4}){4}$]. *)
Theorem generateLicenseKey_matches (random : rng) :
  (forall n, 0 <= random n < 36) ->
  matchesKeyPattern (generateLicenseKey random) = true.
Proof.
  intros Hrandom.
  unfold generateLicenseKey. cbn [groups group fst].
  repeat match goal with
         | |- context [charAt chars (random ?n)] =>
             let c := fresh "c" in
             let E := fresh "E" in
             let A := fresh "A" in
             destruct (charAt_chars (random n) (Hrandom n)) as (c & E & A);
             rewrite E; clear E
         end.
  repeat (cbn -[alnum];
          match goal with
          | A : alnum ?c = true |- context [alnum ?c] => rewrite A
          end).
  reflexivity.
Qed.

(** ** Expiration and creation *)


(** ** Resetting the machines *)

(** C10.  [resetMachines] writes '[]' in [machines_used] of the rows with
    the id and nothing else: their other fields, the rows with other ids,
    the order of the rows and the activation log stay as they are. *)
Theorem resetMachines_frame (i : Z) (db : database) :
  fst (resetMachines i db) = mkOutcome true
  /\ List.length (licenses (snd (resetMachines i db)))
     = List.length (licenses db)
  /\ (forall n l,
        nth_error (licenses db) n = Some l ->
        exists l',
          nth_error (licenses (snd (resetMachines i db))) n = Some l'
          /\ (id l = i ->
              machines_used l' = Some (MachinesJson [])
              /\ parseMachines l' = []
              /\ id l' = id l /\ key l' = key l /\ email l' = email l
              /\ plan l' = plan l /\ max_machines l' = max_machines l
              /\ status l' = status l /\ created_at l' = created_at l
              /\ expires_at l' = expires_at l
              /\ last_validated l' = last_validated l)
          /\ (id l <> i -> l' = l))
  /\ licenses_seq (snd (resetMachines i db)) = licenses_seq db
  /\ activation_logs (snd (resetMachines i db)) = activation_logs db
  /\ activation_logs_seq (snd (resetMachines i db)) = activation_logs_seq db.
Proof.
  unfold resetMachines.
  cbv beta iota delta [run bind ret update_license with_licenses].
  cbn [fst snd licenses licenses_seq activation_logs activation_logs_seq].
  split; [reflexivity|]. split; [apply length_map|].
  split; [|repeat split].
  intros n l Hn.
  eexists. split; [apply map_nth_error, Hn|].
  split.
  - intros <-. rewrite Z.eqb_refl. repeat split.
  - intros Hne. apply Z.eqb_neq in Hne. now rewrite Hne.
Qed.

(** * Concrete runs *)

Module Runs.

Import Example.

(** C1, as stated, fails: one machine allowed, machine A bound, and the
    validation of machine B is valid and binds B. *)
Lemma machine_limit_not_enforced :
  max_machines license1 = 1
  /\ parseMachines license1 = ["A"]
  /\ valid (fst (@validateLicense standIn february K "B" db1)) = true
  /\ reason (fst (@validateLicense standIn february K "B" db1)) = None
  /\ option_map parseMachines
       (lookupKey K (snd (@validateLicense standIn february K "B" db1)))
     = Some ["A"; "B"].
Proof. vm_compute. repeat split. Qed.

(** The same run, through the theorem of C1. *)
Lemma adds_machine_run :
  lookupKey K db1 = Some license1
  /\ includes (parseMachines license1) "B" = false
  /\ valid (fst (@validateLicense standIn february K "B" db1)) = true.
Proof.
  split; [reflexivity|]. split; [reflexivity|].
  exact (proj1 (@validateLicense_adds_machine standIn february K "B" db1
                  license1 eq_refl eq_refl)).
Defined.

(** C2, as stated, fails: the validation after the revocation is valid
    and the license is active again. *)
Lemma revoked_license_validates :
  let revoked := snd (revokeLicense 1 db1) in
  option_map status (lookupKey K revoked) = Some "revoked"
  /\ valid (fst (@validateLicense standIn february K "A" revoked)) = true
  /\ reason (fst (@validateLicense standIn february K "A" revoked)) = None
  /\ option_map status
       (lookupKey K (snd (@validateLicense standIn february K "A" revoked)))
     = Some "active".
Proof. vm_compute. repeat split. Qed.

(** The same run, through the theorem of C2. *)
Lemma after_revoke_run :
  lookupKey K db1 = Some license1
  /\ valid (fst (@validateLicense standIn february K "A"
                   (snd (revokeLicense (id license1) db1)))) = true.
Proof.
  split; [reflexivity|].
  exact (proj1 (proj2 (@validateLicense_after_revoke standIn february K
                         "A" db1 license1 eq_refl))).
Defined.

(** C3, as stated, fails: no license is stored for the key, and the
    validation is valid and stores one. *)
Lemma unknown_key_creates_license :
  lookupKey "RATO-ZZZZ-ZZZZ-ZZZZ-ZZZZ" empty = None
  /\ valid (fst (@validateLicense standIn february
                   "RATO-ZZZZ-ZZZZ-ZZZZ-ZZZZ" "A" empty)) = true
  /\ option_map plan
       (lookupKey "RATO-ZZZZ-ZZZZ-ZZZZ-ZZZZ"
          (snd (@validateLicense standIn february
                  "RATO-ZZZZ-ZZZZ-ZZZZ-ZZZZ" "A" empty)))
     = Some "lifetime"
  /\ List.length
       (licenses (snd (@validateLicense standIn february
                         "RATO-ZZZZ-ZZZZ-ZZZZ-ZZZZ" "A" empty))) = 1%nat.
Proof. vm_compute. repeat split. Qed.

(** A key without the prefix and without a license is refused, the
    database kept (theorem of C3). *)
Lemma no_license_run :
  lookupKey "ABCD-1234" db1 = None
  /\ startsWith "ABCD-1234" "RATO-" = false
  /\ @validateLicense standIn february "ABCD-1234" "A" db1
     = (invalid "Chave inválida (deve começar com RATO-)", db1).
Proof.
  split; [reflexivity|]. split; [reflexivity|].
  exact (proj1 (@validateLicense_no_license standIn february "ABCD-1234"
                  "A" db1 eq_refl) eq_refl).
Defined.

(** The token made for machine A of [license1] verifies (theorem of C5):
    the stand-in deciphers what it encrypted, and the license expires on
    2025-02-15T10:00:00.000Z, after [february]. *)
Lemma created_token_run :
  String.length (randomBytes february) = (IV_LENGTH * 2)%nat
  /\ @sealed standIn february (@offlineTokenData standIn february license1 "A")
  /\ Date_parse (otherFormats february) (expires_at license1)
     = Some 1739613600000
  /\ Date_now february <= 1739613600000
  /\ exists d,
       @verifyOfflineToken standIn february
         (@createOfflineToken standIn february license1 "A")
       = Return (mkResult true None None None (Some d))
       /\ get d "key" = Some (VStr (key license1))
       /\ get d "machineId" = Some (VStr "A")
       /\ get d "expiresAt" = Some (VStr (expires_at license1)).
Proof.
  assert (H1 : String.length (randomBytes february) = (IV_LENGTH * 2)%nat)
    by reflexivity.
  assert (H2 : @sealed standIn february
                 (@offlineTokenData standIn february license1 "A"))
    by (split; reflexivity).
  assert (H3 : Date_parse (otherFormats february) (expires_at license1)
               = Some 1739613600000)
    by reflexivity.
  assert (H4 : Date_now february <= 1739613600000)
    by (vm_compute; discriminate).
  repeat (split; [assumption|]).
  exact (@verify_created_token standIn february february license1 "A"
           1739613600000 H1 H2 H3 H4).
Defined.

(** C6, as stated, fails: the reason of a token that does not decrypt is
    'Invalid token', and the call throws on a token whose data are the
    empty object, the HMAC being fed NaN. *)
Lemma verifyOfflineToken_reason_and_throw :
  @decryptLicenseData standIn "" = None
  /\ @verifyOfflineToken standIn february ""
     = Return (invalid "Invalid token")
  /\ @verifyOfflineToken standIn february ""
     <> Return (invalid "invalid token")
  /\ @decryptLicenseData standIn (iv ++ tag ++ "02") = Some (VObj [])
  /\ @verifyOfflineToken standIn february (iv ++ tag ++ "02")
     = Throw "TypeError".
Proof. vm_compute. repeat split. discriminate. Qed.

(** The last case of the theorem of C6: the signature is the HMAC, the
    token is valid. *)
Lemma order_run :
  @decryptLicenseData standIn (iv ++ tag ++ "01") = Some data1
  /\ @verifyOfflineToken standIn february (iv ++ tag ++ "01")
     = Return (mkResult true None None None (Some data1)).
Proof.
  split; [reflexivity|].
  exact (proj2 (proj2 (proj2 (proj2 (@verifyOfflineToken_order standIn
                                       february (iv ++ tag ++ "01"))))
                  data1 K "A" "2025-02-15T10:00:00.000Z"
                  eq_refl eq_refl eq_refl eq_refl eq_refl)
           eq_refl).
Defined.

(** Data signed for an expiry written 2020-01-01, a date the engine reads:
    the token is expired in February 2025; and a token that decrypts to
    null is invalid. *)
Lemma expiry_in_another_format :
  @verifyOfflineToken standIn february (iv ++ tag ++ "04")
  = Return (invalid "License expired")
  /\ @verifyOfflineToken standIn february (iv ++ tag ++ "05")
     = Return (invalid "Invalid token").
Proof. vm_compute. split; reflexivity. Qed.

(** A license whose expiry is written 2020-01-01 gets the lifetime expiry
    when it is validated in February 2025. *)
Lemma past_expiry_in_another_format :
  option_map expires_at
    (lookupKey K
       (snd (@validateLicense standIn february K "A"
               (mkDatabase [set_expires_at "2020-01-01" license1] 1 [] 0))))
  = Some "2125-02-01T00:00:00.000Z".
Proof. vm_compute. reflexivity. Qed.

Lemma sequence_in_range (n : nat) : 0 <= sequence n < 36.
Proof. unfold sequence. apply Z.mod_pos_bound. lia. Qed.

(** The key drawn from [sequence] (theorem of C7). *)
Lemma key_run :
  (forall n, 0 <= sequence n < 36)
  /\ generateLicenseKey sequence = "RATO-AHOV-29GN-U18F-MT07"
  /\ matchesKeyPattern (generateLicenseKey sequence) = true.
Proof.
  split; [exact sequence_in_range|]. split; [reflexivity|].
  exact (generateLicenseKey_matches sequence sequence_in_range).
Defined.

(** Machine B validated twice for [license1] (theorem of C8). *)
Lemma idempotent_run :
  lookupKey K db1 = Some license1
  /\ exists l1 l2,
       lookupKey K (snd (@validateLicense standIn february K "B" db1))
       = Some l1
       /\ lookupKey K
            (snd (@validateLicense standIn february K "B"
                    (snd (@validateLicense standIn february K "B" db1))))
          = Some l2
       /\ parseMachines l2 = parseMachines l1
       /\ ((count_occ string_dec (parseMachines license1) "B" <= 1)%nat ->
           count_occ string_dec (parseMachines l2) "B" = 1%nat)
       /\ (NoDup (parseMachines license1) -> NoDup (parseMachines l2)).
Proof.
  split; [reflexivity|].
  exact (@validateLicense_idempotent standIn february february K "B" db1
           license1 eq_refl).
Defined.


(** One month from noon (UTC) of the first of March 2025 in New York,
    where daylight saving starts on the ninth: 31 days less one hour. *)
Lemma monthly_across_daylight_saving :
  calculateExpiration march "monthly" = "2025-04-01T11:00:00.000Z"
  /\ offsetChange march 31 = - msPerHour
  /\ parseISO (calculateExpiration march "monthly")
     = Some (Date_now march + 31 * msPerDay - msPerHour).
Proof. vm_compute. repeat split. Qed.


End Runs.

(** * Further properties *)

(** X1.  A license is not expired when it is created: for a clock between
    the years 0000 and 9899, a time zone whose offsets are within a day
    and any plan (a plan that is not known counts as monthly), the text
    [calculateExpiration] returns is read back by [new Date] as the
    instant it was made from, now plus 28 to 36525 days plus the change
    of the zone's offset — more than 26 and less than 36527 days after
    now — and the test [new Date(expires_at) < new Date()] of
    [validateLicense] is false on it. *)
Theorem calculateExpiration_not_expired (e : env) (pl : string) :
  -62167219200000 <= Date_now e < 250246540800000 ->
  offsetsWithinADay e ->
  exists days t,
    28 <= days <= 36525
    /\ t = Date_now e + days * msPerDay + offsetChange e days
    /\ Date_parse (otherFormats e) (calculateExpiration e pl) = Some t
    /\ Date_now e + 26 * msPerDay < t < Date_now e + 36527 * msPerDay
    /\ before (Date_parse (otherFormats e) (calculateExpiration e pl))
              (Date_now e) = false.
Proof.
  intros Hnow Hzone.
  destruct (expiration_parses e (otherFormats e) pl Hnow Hzone)
    as (days & t & Hdays & Ht & Hparse & Hbounds).
  exists days, t. repeat (split; [assumption|]).
  rewrite Hparse. cbn [before]. apply Z.ltb_ge.
  unfold msPerDay in Hbounds. lia.
Qed.

Section TokenFacts.

Context {crypto : NodeCrypto}.

(** The verification of a token just made, by the expiry of the license. *)
Lemma verify_created_cases (e e' : env) (l : license) (m : string) :
  String.length (randomBytes e) = (IV_LENGTH * 2)%nat ->
  sealed e (offlineTokenData e l m) ->
  verifyOfflineToken e' (createOfflineToken e l m)
  = if before (Date_parse (otherFormats e') (expires_at l)) (Date_now e')
    then Return (invalid "License expired")
    else Return (mkResult true None None None
                   (Some (offlineTokenData e l m))).
Proof.
  intros Hiv Hsealed.
  unfold verifyOfflineToken, createOfflineToken. cbv zeta.
  rewrite (decrypt_encrypt e _ Hiv Hsealed).
  unfold offlineTokenData.
  cbn [truthy negb get lookup String.eqb Ascii.eqb Bool.eqb ToPrimitive
       add new_Date ToString].
  destruct (before (Date_parse (otherFormats e') (expires_at l))
              (Date_now e'));
    [reflexivity|].
  cbn [differs]. now rewrite String.eqb_refl.
Qed.

(** X2.  Decryption undoes encryption: with 16 random bytes of IV and the
    cipher at work on the data, [decryptLicenseData (encryptLicenseData
    data)] is [data]; the IV, the tag and the encrypted text are cut out of
    the token at the places where they were put. *)
Theorem decryptLicenseData_encryptLicenseData (e : env) (d : value) :
  String.length (randomBytes e) = (IV_LENGTH * 2)%nat ->
  sealed e d ->
  decryptLicenseData (encryptLicenseData e d) = Some d.
Proof. apply decrypt_encrypt. Qed.

(** X3.  [verifyOfflineToken] accepts nothing but signed data that are not
    expired: when it returns valid:true, the token decrypts to the data it
    returns, their [expiresAt] is not before now, and their
    [validationSignature] is the HMAC, under the license secret, of the
    string key + machineId + expiresAt. *)
Theorem verifyOfflineToken_sound (e : env) (token : string) (r : result) :
  verifyOfflineToken e token = Return r ->
  valid r = true ->
  exists d message,
    decryptLicenseData token = Some d
    /\ data r = Some d
    /\ before (new_Date (otherFormats e) (get d "expiresAt")) (Date_now e)
       = false
    /\ add (add (ToPrimitive (get d "key"))
                (ToPrimitive (get d "machineId")))
           (ToPrimitive (get d "expiresAt")) = PStr message
    /\ get d "validationSignature"
       = Some (VStr (hmac_sha256 config.licenseSecret message)).
Proof.
  unfold verifyOfflineToken. intros Hr Hvalid.
  destruct (decryptLicenseData token) as [d|];
    [|injection Hr as <-; discriminate].
  destruct (negb (truthy d)); [injection Hr as <-; discriminate|].
  destruct (before (new_Date (otherFormats e) (get d "expiresAt"))
              (Date_now e)) eqn:Hexp;
    [injection Hr as <-; discriminate|].
  destruct (add _ _) as [| | | | |message] eqn:Hadd; try discriminate.
  exists d, message.
  destruct (get d "validationSignature") as [[| | |sig| |]|] eqn:Hsig;
    cbn [differs] in Hr; try (injection Hr as <-; discriminate).
  destruct (String.eqb_spec sig (hmac_sha256 config.licenseSecret message))
    as [->|]; cbn [negb] in Hr; injection Hr as <-; [|discriminate].
  repeat split; assumption.
Qed.

(** X4.  A token just made stands or falls with the expiry of its license:
    with the cipher at work and [license.expires_at] a text that [new
    Date] reads as a date (one that [toISOString] wrote, or another the
    engine reads), [verifyOfflineToken (createOfflineToken license
    machineId)] is 'License expired' when that date is before now, and is
    valid, with the data of the token, when it is not. *)
Theorem verify_created_token_by_expiry (e e' : env) (l : license)
    (m : string) (t : Z) :
  String.length (randomBytes e) = (IV_LENGTH * 2)%nat ->
  sealed e (offlineTokenData e l m) ->
  Date_parse (otherFormats e') (expires_at l) = Some t ->
  (t < Date_now e' ->
   verifyOfflineToken e' (createOfflineToken e l m)
   = Return (invalid "License expired"))
  /\ (Date_now e' <= t -> valid_token e' e l m).
Proof.
  intros Hiv Hsealed Ht. unfold valid_token.
  rewrite (verify_created_cases e e' l m Hiv Hsealed), Ht.
  cbn [before]. split.
  - intros Hlt. now apply Z.ltb_lt in Hlt as ->.
  - intros Hle. now apply Z.ltb_ge in Hle as ->.
Qed.

End TokenFacts.

(** ** Validation, continued *)

Lemma lookupKey_key (k : string) (db : database) (l : license) :
  lookupKey k db = Some l -> key l = k.
Proof.
  intros H. apply find_some in H as [_ H]. now apply String.eqb_eq.
Qed.

Lemma nth_error_afterValidation (e : env) (m : string) (l : license)
    (db : database) (n : nat) (r : license) :
  nth_error (licenses db) n = Some r ->
  nth_error (licenses (afterValidation e m l db)) n
  = Some (if id r =? id l then validated e m l r else r).
Proof.
  intros H. unfold afterValidation. cbn [licenses].
  exact (map_nth_error
           (fun r => if id r =? id l then validated e m l r else r) n _ H).
Qed.

Section ValidationFacts.

Context {crypto : NodeCrypto}.

(** X5.  The token a validation hands out verifies at once: for a license
    found by its key, a clock between the years 0000 and 9899, a time zone
    whose offsets are within a day and the cipher at work,
    [verifyOfflineToken] at the instant of the validation accepts the
    [offlineToken] of the result, and the data it returns carry the key
    and the machine of the validation. *)
Theorem validateLicense_token_verifies (e : env) (k m : string)
    (db : database) (l : license) :
  lookupKey k db = Some l ->
  -62167219200000 <= Date_now e < 250246540800000 ->
  offsetsWithinADay e ->
  String.length (randomBytes e) = (IV_LENGTH * 2)%nat ->
  sealed e (offlineTokenData e (validated e m l l) m) ->
  exists token d,
    offlineToken (fst (validateLicense e k m db)) = Some token
    /\ verifyOfflineToken e token
       = Return (mkResult true None None None (Some d))
    /\ get d "key" = Some (VStr k)
    /\ get d "machineId" = Some (VStr m).
Proof.
  intros Hl Hnow Hzone Hiv Hsealed.
  rewrite (validateLicense_found e k m db l Hl). cbn [fst offlineToken].
  exists (createOfflineToken e (validated e m l l) m),
    (offlineTokenData e (validated e m l l) m).
  split; [reflexivity|].
  rewrite (verify_created_cases e e _ m Hiv Hsealed).
  assert (Hnot : before (Date_parse (otherFormats e)
                           (expires_at (validated e m l l)))
                   (Date_now e) = false).
  { rewrite validated_expires_at.
    destruct (before (Date_parse (otherFormats e) (expires_at l))
                (Date_now e)) eqn:Hexp;
      [|exact Hexp].
    destruct (expiration_parses e (otherFormats e) "lifetime" Hnow Hzone)
      as (days & t & _ & _ & -> & Ht).
    cbn [before]. apply Z.ltb_ge. unfold msPerDay in Ht. lia. }
  rewrite Hnot. split; [reflexivity|].
  unfold offlineTokenData. cbn [get lookup String.eqb Ascii.eqb Bool.eqb].
  rewrite validated_key, (lookupKey_key k db l Hl). split; reflexivity.
Qed.

(** X6.  A validation touches one license and logs once: for a license
    found by its key, the rows with another id stay as they are, in their
    places; the row of the license keeps its id, key, email, plan,
    [max_machines] and [created_at] and gets now as [last_validated]; no
    license is added; and exactly one row is appended to the activation
    log, with the id of the license, the machine, the action 'validate' and
    no IP address. *)
Theorem validateLicense_frame (e : env) (k m : string) (db : database)
    (l : license) :
  lookupKey k db = Some l ->
  let db' := snd (validateLicense e k m db) in
  (forall n r, nth_error (licenses db) n = Some r ->
     exists r',
       nth_error (licenses db') n = Some r'
       /\ (id r <> id l -> r' = r)
       /\ id r' = id r /\ key r' = key r /\ email r' = email r
       /\ plan r' = plan r /\ max_machines r' = max_machines r
       /\ created_at r' = created_at r)
  /\ (exists l', lookupKey k db' = Some l'
        /\ last_validated l' = Some (toISOString (Date_now e)))
  /\ List.length (licenses db') = List.length (licenses db)
  /\ licenses_seq db' = licenses_seq db
  /\ activation_logs db'
     = (activation_logs db
        ++ [mkLog (activation_logs_seq db + 1) (id l) m "validate" None
                  (CURRENT_TIMESTAMP (Date_now e))])%list
  /\ activation_logs_seq db' = activation_logs_seq db + 1.
Proof.
  intros Hl db'. unfold db'.
  rewrite (validateLicense_found e k m db l Hl). cbn [snd].
  split; [|split; [|split; [|repeat split]]].
  - intros n r Hn.
    rewrite (nth_error_afterValidation e m l db n r Hn).
    eexists. split; [reflexivity|].
    destruct (Z.eqb_spec (id r) (id l)) as [E|E].
    + split; [intros Hne; contradiction|].
      pose proof (validated_other_fields e m l r) as (? & ? & ? & ? & ? & ? & _).
      repeat split; assumption.
    + repeat split.
  - exists (validated e m l l).
    split; [now apply lookupKey_validated|apply validated_other_fields].
  - unfold afterValidation. cbn [licenses]. apply length_map.
Qed.

(** X7.  The license of a valid result is the stored one: whenever
    [validateLicense] returns valid:true, on a table whose integers (ids
    and [max_machines]) are ones that a double holds as they are, the
    [license] object of the result shows the row stored under the key
    after the call — its key, which is the key asked for, its plan, its
    expiry, the number of its machines and its [max_machines]. *)
Theorem validateLicense_shows_stored_row (e : env) (k m : string)
    (db : database) :
  safeIntegers db ->
  valid (fst (validateLicense e k m db)) = true ->
  exists l',
    lookupKey k (snd (validateLicense e k m db)) = Some l'
    /\ licenseInfo (fst (validateLicense e k m db)) = Some (publicView l')
    /\ key l' = k
    /\ safeInteger (id l') /\ safeInteger (max_machines l').
Proof.
  assert (Hfound : forall db0 l0, lookupKey k db0 = Some l0 ->
            safeInteger (id l0) /\ safeInteger (max_machines l0) ->
            exists l',
              lookupKey k (snd (validateLicense e k m db0)) = Some l'
              /\ licenseInfo (fst (validateLicense e k m db0))
                 = Some (publicView l')
              /\ key l' = k
              /\ safeInteger (id l') /\ safeInteger (max_machines l')).
  { intros db0 l0 H0 Hsafe. exists (validated e m l0 l0).
    rewrite (validateLicense_found e k m db0 l0 H0).
    cbn [fst snd licenseInfo].
    split; [now apply lookupKey_validated|].
    pose proof (validated_other_fields e m l0 l0)
      as (Hid & Hkey & _ & Hplan & Hmax & _).
    unfold publicView. rewrite Hid, Hkey, Hplan, Hmax.
    split; [reflexivity|]. split; [now apply lookupKey_key in H0|exact Hsafe]. }
  intros [Hseq Hrows] Hvalid.
  destruct (lookupKey k db) as [l|] eqn:Hl.
  - apply (Hfound db l Hl), Hrows.
    unfold lookupKey in Hl. now apply find_some in Hl.
  - destruct (startsWith k "RATO-") eqn:Hp.
    + destruct (validateLicense_creates e k m db Hl Hp) as [Hnew Heq].
      rewrite Heq. apply (Hfound _ _ Hnew).
      cbn [created id max_machines]. split; [exact Hseq|].
      unfold safeInteger. cbn. lia.
    + rewrite (validateLicense_unknown e k m db Hl Hp) in Hvalid.
      discriminate.
Qed.

(** X8.  After a reset the next machine is the only one: for a license
    found by its key, [resetMachines] followed by the validation of a
    machine leaves exactly that machine in [machines_used], and the result
    counts one machine. *)
Theorem validateLicense_after_reset (e : env) (k m : string)
    (db : database) (l : license) :
  lookupKey k db = Some l ->
  let cleared := snd (resetMachines (id l) db) in
  (exists v, licenseInfo (fst (validateLicense e k m cleared)) = Some v
             /\ pub_machinesUsed v = 1)
  /\ exists l', lookupKey k (snd (validateLicense e k m cleared)) = Some l'
                /\ machines_used l' = Some (MachinesJson [m]).
Proof.
  intros Hl cleared.
  assert (Hc : lookupKey k cleared
               = Some (set_machines_used (Some (MachinesJson [])) l)).
  { unfold cleared, resetMachines, lookupKey in *.
    cbv beta iota delta [run bind ret update_license with_licenses].
    cbn [snd licenses]. rewrite find_map.
    - rewrite Hl. cbn. now rewrite Z.eqb_refl.
    - intros r. now destruct (id r =? id l). }
  rewrite (validateLicense_found e k m cleared _ Hc).
  cbn [fst snd licenseInfo]. split.
  - eexists. split; [reflexivity|]. cbn [pub_machinesUsed].
    now rewrite validated_machines.
  - eexists. split; [now apply lookupKey_validated|].
    now rewrite validated_machines_used.
Qed.

End ValidationFacts.

(** ** The constraints of the tables *)

Lemma constraints_update (g : license -> license) (db : database) :
  (forall r, id (g r) = id r /\ key (g r) = key r) ->
  constraints db ->
  constraints (with_licenses (map g (licenses db)) db).
Proof.
  intros Hg (Hkeys & Hids & Hseq & Hfk).
  unfold constraints, with_licenses.
  cbn [licenses licenses_seq activation_logs].
  rewrite !map_map.
  rewrite (map_ext (fun x => key (g x)) key) by (intros; apply Hg).
  rewrite (map_ext (fun x => id (g x)) id) by (intros; apply Hg).
  split; [exact Hkeys|]. split; [exact Hids|]. split.
  - intros l Hin. apply in_map_iff in Hin as (r & <- & Hr).
    rewrite (proj1 (Hg r)). now apply Hseq.
  - intros a Ha. destruct (Hfk a Ha) as (l & Hl & E).
    exists (g l). split; [now apply in_map|].
    now rewrite (proj1 (Hg l)).
Qed.

Lemma constraints_where (f : license -> license) (i : Z) (db : database) :
  (forall r, id (f r) = id r /\ key (f r) = key r) ->
  constraints db ->
  constraints
    (with_licenses (map (fun l => if id l =? i then f l else l) (licenses db))
       db).
Proof.
  intros Hf. apply constraints_update.
  intros r. destruct (id r =? i); [apply Hf|split; reflexivity].
Qed.

Lemma find_none_forall {A : Type} (p : A -> bool) (l : list A) :
  find p l = None -> forall x, In x l -> p x = false.
Proof. intros H x Hx. exact (find_none p l H x Hx). Qed.

Lemma constraints_inserted (e : env) (k : string) (mail : option string)
    (pl : string) (maxm : Z) (mu : option machines_text)
    (st created expires : string) (lv : option string) (db : database) :
  lookupKey k db = None ->
  constraints db ->
  constraints
    (mkDatabase
       (licenses db
        ++ [mkLicense (licenses_seq db + 1) k mail pl maxm mu st created
                      expires lv])
       (licenses_seq db + 1) (activation_logs db) (activation_logs_seq db)).
Proof.
  intros Hnone (Hkeys & Hids & Hseq & Hfk).
  unfold constraints. cbn [licenses licenses_seq activation_logs].
  rewrite !map_app. cbn [map key id].
  split; [|split; [|split]].
  - apply NoDup_app; [exact Hkeys|repeat constructor; intros []|].
    intros x Hx [<-|[]].
    apply in_map_iff in Hx as (r & E & Hr).
    pose proof (find_none_forall _ _ Hnone r Hr) as Hne. cbv beta in Hne.
    apply String.eqb_neq in Hne. congruence.
  - apply NoDup_app; [exact Hids|repeat constructor; intros []|].
    intros x Hx [<-|[]].
    apply in_map_iff in Hx as (r & E & Hr).
    pose proof (Hseq r Hr). lia.
  - intros l Hin. apply in_app_or in Hin as [Hin|[<-|[]]].
    + pose proof (Hseq l Hin). lia.
    + cbn [id]. lia.
  - intros a Ha. destruct (Hfk a Ha) as (l & Hl & E).
    exists l. split; [apply in_or_app; now left|exact E].
Qed.

Lemma constraints_afterValidation (e : env) (k m : string) (db : database)
    (l : license) :
  lookupKey k db = Some l ->
  constraints db ->
  constraints (afterValidation e m l db).
Proof.
  intros Hl Hc.
  pose proof (constraints_where (validated e m l) (id l) db
                (fun r => conj (validated_id e m l r) (validated_key e m l r))
                Hc) as (Hkeys & Hids & Hseq & Hfk).
  unfold with_licenses in *.
  cbn [licenses licenses_seq activation_logs] in *.
  unfold constraints, afterValidation.
  cbn [licenses licenses_seq activation_logs].
  split; [exact Hkeys|]. split; [exact Hids|]. split; [exact Hseq|].
  intros a Ha. apply in_app_or in Ha as [Ha|[<-|[]]]; [now apply Hfk|].
  apply find_some in Hl as [Hin _].
  exists (validated e m l l). split.
  - apply in_map_iff. exists l. split; [now rewrite Z.eqb_refl|exact Hin].
  - unfold entry. cbn [license_id]. apply validated_id.
Qed.

Lemma assign_keeps (d : license_update) (l : license) :
  id (assign (assignments d) l) = id l
  /\ key (assign (assignments d) l) = key l
  /\ machines_used (assign (assignments d) l) = machines_used l
  /\ created_at (assign (assignments d) l) = created_at l
  /\ last_validated (assign (assignments d) l) = last_validated l.
Proof.
  unfold assign, assignments.
  destruct (upd_email d), (upd_plan d), (upd_maxMachines d), (upd_status d),
    (upd_expiresAt d); cbn; repeat split.
Qed.


(** The database after [updateLicense]. *)
Lemma updateLicense_database (i : Z) (d : license_update) (db : database) :
  snd (updateLicense i d db)
  = with_licenses
      (map (fun l => if id l =? i then assign (assignments d) l else l)
           (licenses db)) db.
Proof.
  unfold updateLicense.
  cbv beta iota zeta delta [run bind ret select_license_by_id update_license].
  destruct (List.length (assignments d) =? 0)%nat eqn:E; cbn [snd];
    [|reflexivity].
  apply Nat.eqb_eq, length_zero_iff_nil in E.
  unfold with_licenses. rewrite E. cbn [assign fold_left].
  rewrite (map_ext _ (fun l => l)) by (intros r; now destruct (id r =? i)).
  rewrite map_id. now destruct db.
Qed.

Section Invariant.

Context {crypto : NodeCrypto}.

(** X9.  The service keeps the constraints of the tables: when the keys of
    the licenses are distinct, their ids distinct and not above the last id
    given out, and every activation log refers to a license, the same holds
    after [createLicense] (also when it throws on a key that is taken),
    [validateLicense], [updateLicense], [revokeLicense] and
    [resetMachines]. *)
Theorem constraints_kept (e : env) (k m : string) (i : Z)
    (d : license_data) (u : license_update) (db : database) :
  constraints db ->
  constraints (snd (createLicense e d db))
  /\ constraints (snd (validateLicense e k m db))
  /\ constraints (snd (updateLicense i u db))
  /\ constraints (snd (revokeLicense i db))
  /\ constraints (snd (resetMachines i db)).
Proof.
  intros Hc. split; [|split; [|split; [|split]]].
  - destruct (lookupKey (generateLicenseKey (Math_random e)) db) as [l|]
      eqn:Hl.
    + now rewrite (createLicense_taken e d db l Hl).
    + unfold lookupKey in Hl. unfold createLicense.
      cbv beta iota zeta delta [run bind ret exit insert_license].
      rewrite (existsb_find_none _ _ Hl). cbn [snd].
      now apply constraints_inserted.
  - destruct (lookupKey k db) as [l|] eqn:Hl.
    + rewrite (validateLicense_found e k m db l Hl). cbn [snd].
      now apply (constraints_afterValidation e k).
    + destruct (startsWith k "RATO-") eqn:Hp.
      * destruct (validateLicense_creates e k m db Hl Hp) as [Hnew ->].
        rewrite (validateLicense_found e k m _ _ Hnew). cbn [snd].
        apply (constraints_afterValidation e k); [exact Hnew|].
        now apply constraints_inserted.
      * now rewrite (validateLicense_unknown e k m db Hl Hp).
  - rewrite updateLicense_database.
    apply constraints_where; [|exact Hc].
    intros r. pose proof (assign_keeps u r) as (? & ? & _). now split.
  - unfold revokeLicense.
    cbv beta iota zeta delta [run bind ret update_license]. cbn [snd].
    apply constraints_where; [|exact Hc]. now split.
  - unfold resetMachines.
    cbv beta iota zeta delta [run bind ret update_license]. cbn [snd].
    apply constraints_where; [|exact Hc]. now split.
Qed.

End Invariant.

(** ** Creation, lookup and update *)

Lemma find_id_fresh (ls : list license) (row : license) (seq : Z) :
  (forall l, In l ls -> id l <= seq) -> id row = seq + 1 ->
  find (fun l => id l =? seq + 1) (ls ++ [row]) = Some row.
Proof.
  intros Hseq Hid. rewrite find_app.
  destruct (find (fun l => id l =? seq + 1) ls) as [l|] eqn:E.
  - apply find_some in E as [Hin E]. apply Z.eqb_eq in E.
    pose proof (Hseq l Hin). lia.
  - cbn. now rewrite Hid, Z.eqb_refl.
Qed.

(** X10.  What [createLicense] returns identifies what it stored: on tables
    that meet their constraints and for a generated key that is not taken,
    the call returns an id and a key under each of which the new row is
    found ([getLicenseById], lookup by key), a row with the plan asked for,
    the expiry returned, [maxMachines || 1] machines allowed, none bound,
    and the status 'active'. *)
Theorem createLicense_then_getLicenseById (e : env) (d : license_data)
    (db : database) :
  constraints db ->
  lookupKey (generateLicenseKey (Math_random e)) db = None ->
  exists c row,
    fst (createLicense e d db) = Return c
    /\ fst (getLicenseById (new_id c) (snd (createLicense e d db)))
       = Some row
    /\ lookupKey (new_key c) (snd (createLicense e d db)) = Some row
    /\ id row = new_id c /\ key row = new_key c
    /\ plan row = data_plan d /\ expires_at row = new_expiresAt c
    /\ max_machines row = maxMachinesOr1 (data_maxMachines d)
    /\ machines_used row = Some (MachinesJson [])
    /\ status row = "active".
Proof.
  intros (_ & _ & Hseq & _) Hfresh. unfold lookupKey in Hfresh.
  unfold createLicense, getLicenseById.
  cbv beta iota zeta delta [run bind ret exit insert_license
                            select_license_by_id].
  rewrite (existsb_find_none _ _ Hfresh). cbn [fst snd licenses].
  eexists. eexists. split; [reflexivity|].
  cbn [new_id new_key new_expiresAt].
  split; [|split].
  - apply (find_id_fresh (licenses db) _ (licenses_seq db) Hseq).
    reflexivity.
  - unfold lookupKey. cbn [licenses]. rewrite find_app, Hfresh.
    cbn [find key]. now rewrite String.eqb_refl.
  - repeat split.
Qed.

Section EndToEnd.

Context {crypto : NodeCrypto}.

(** X11.  A license created is a license that validates, untouched: for a
    generated key that is not taken, a clock between the years 0000 and
    9899, a time zone whose offsets are within a day and a first
    validation, of machine [m], no later than 26 days after the creation,
    [validateLicense] on the key returned by [createLicense] returns
    valid:true with the plan, the expiry and the [maxMachines] of the
    creation and one machine used, stores the machine alone, and appends
    the only activation log of the license. *)
Theorem create_then_validate (e e' : env) (d : license_data) (m : string)
    (db : database) :
  lookupKey (generateLicenseKey (Math_random e)) db = None ->
  -62167219200000 <= Date_now e < 250246540800000 ->
  offsetsWithinADay e ->
  Date_now e' <= Date_now e + 26 * msPerDay ->
  exists c,
    fst (createLicense e d db) = Return c
    /\ new_key c = generateLicenseKey (Math_random e)
    /\ fst (validateLicense e' (new_key c) m (snd (createLicense e d db)))
       = mkResult true None
           (Some (mkPublic (new_key c) (data_plan d) (new_expiresAt c) 1
                    (new_maxMachines c)))
           (offlineToken
              (fst (validateLicense e' (new_key c) m
                      (snd (createLicense e d db)))))
           None
    /\ option_map machines_used
         (lookupKey (new_key c)
            (snd (validateLicense e' (new_key c) m
                    (snd (createLicense e d db)))))
       = Some (Some (MachinesJson [m]))
    /\ activation_logs
         (snd (validateLicense e' (new_key c) m (snd (createLicense e d db))))
       = (activation_logs db
          ++ [mkLog (activation_logs_seq db + 1) (new_id c) m "validate" None
                    (CURRENT_TIMESTAMP (Date_now e'))])%list.
Proof.
  intros Hfresh Hnow Hzone Hsoon.
  destruct (createLicense_fresh e d db Hfresh)
    as (row & db1 & Hc & Hlook & Hkey & Hplan & Hexp & Hst & Hmach).
  assert (Hdb1 : activation_logs db1 = activation_logs db
                 /\ activation_logs_seq db1 = activation_logs_seq db).
  { unfold lookupKey in Hfresh. unfold createLicense in Hc.
    cbv beta iota zeta delta [run bind ret exit insert_license] in Hc.
    rewrite (existsb_find_none _ _ Hfresh) in Hc.
    injection Hc as _ _ _ _ <-. split; reflexivity. }
  destruct Hdb1 as [Hlogs Hlseq].
  rewrite Hc. cbn [fst snd].
  eexists. split; [reflexivity|]. cbn [new_key new_id new_expiresAt
    new_maxMachines].
  rewrite Hkey in *. split; [reflexivity|].
  rewrite (validateLicense_found e' _ m db1 row Hlook).
  cbn [fst snd offlineToken].
  assert (Hnot : before (Date_parse (otherFormats e') (expires_at row))
                   (Date_now e') = false).
  { rewrite Hexp.
    destruct (expiration_parses e (otherFormats e') (data_plan d) Hnow Hzone)
      as (days & t & _ & _ & -> & Ht).
    cbn [before]. apply Z.ltb_ge. lia. }
  assert (Hnone : includes (parseMachines row) m = false).
  { unfold parseMachines. now rewrite Hmach. }
  split; [|split].
  - rewrite validated_expires_at, Hnot, validated_machines, Hnone.
    unfold parseMachines. rewrite Hmach. cbn [List.length app Z.of_nat].
    now rewrite Hkey, Hplan, Hexp.
  - unfold afterValidation.
    rewrite (lookupKey_validated e' _ m db1 row _ _ _ Hlook).
    cbn [option_map]. rewrite validated_machines_used, Hnone.
    unfold parseMachines. now rewrite Hmach.
  - unfold afterValidation, entry. cbn [activation_logs].
    now rewrite Hlogs, Hlseq.
Qed.

End EndToEnd.


Lemma map_where_none (f : license -> license) (i : Z) (ls : list license) :
  find (fun l => id l =? i) ls = None ->
  map (fun l => if id l =? i then f l else l) ls = ls.
Proof.
  intros H. rewrite <- (map_id ls) at 2.
  apply map_ext_in. intros r Hr.
  now rewrite (find_none _ _ H r Hr).
Qed.

Lemma unknown_id_updates (i : Z) (d : license_update) (db : database) :
  fst (getLicenseById i db) = None ->
  updateLicense i d db = (None, db)
  /\ snd (revokeLicense i db) = db
  /\ snd (resetMachines i db) = db.
Proof.
  unfold getLicenseById, run, select_license_by_id. cbn [fst].
  intros Hnone.
  assert (Hsame : forall f,
            with_licenses
              (map (fun l => if id l =? i then f l else l) (licenses db)) db
            = db).
  { intros f. rewrite (map_where_none f i _ Hnone). now destruct db. }
  split; [|split].
  - rewrite (surjective_pairing (updateLicense i d db)).
    rewrite updateLicense_database, Hsame. f_equal.
    unfold updateLicense.
    cbv beta iota zeta delta [run bind ret select_license_by_id
                              update_license].
    destruct (List.length (assignments d) =? 0)%nat; cbn [fst];
      [exact Hnone|].
    cbn [licenses]. now rewrite (map_where_none _ i _ Hnone).
  - unfold revokeLicense.
    cbv beta iota zeta delta [run bind ret update_license]. cbn [snd].
    apply Hsame.
  - unfold resetMachines.
    cbv beta iota zeta delta [run bind ret update_license]. cbn [snd].
    apply Hsame.
Qed.

(** X13.  On an id that no license has, the updating calls change nothing:
    [updateLicense] returns undefined, whatever the fields given, and
    neither it nor [revokeLicense] nor [resetMachines] changes the
    database. *)
Theorem unknown_id_changes_nothing (i : Z) (d : license_update)
    (db : database) :
  fst (getLicenseById i db) = None ->
  updateLicense i d db = (None, db)
  /\ snd (revokeLicense i db) = db
  /\ snd (resetMachines i db) = db.
Proof. apply unknown_id_updates. Qed.

(** X14.  Revoking is updating the status: [revokeLicense(id)] leaves the
    database that [updateLicense(id, {status: 'revoked'})] leaves, and an
    update of the status alone undoes it, [updateLicense(id, {status:
    'active'})] after [revokeLicense(id)] giving every license with the id
    the status 'active' and its other fields as before the revocation. *)
Theorem revokeLicense_is_an_update (i : Z) (db : database) :
  snd (revokeLicense i db)
  = snd (updateLicense i (mkUpdate None None None (Some "revoked") None) db)
  /\ snd (updateLicense i (mkUpdate None None None (Some "active") None)
            (snd (revokeLicense i db)))
     = snd (updateLicense i (mkUpdate None None None (Some "active") None)
              db).
Proof.
  rewrite !updateLicense_database.
  unfold revokeLicense.
  cbv beta iota zeta delta [run bind ret update_license]. cbn [snd].
  split; [reflexivity|].
  unfold with_licenses. cbn [licenses licenses_seq activation_logs
    activation_logs_seq].
  rewrite map_map. f_equal. apply map_ext. intros r.
  destruct (id r =? i) eqn:E; cbn [id set_status]; rewrite E; reflexivity.
Qed.


(** ** Statistics *)








Lemma count_after_status (st v : string) (i : Z) (l : license) :
  forall ls,
    NoDup (map id ls) -> In l ls -> id l = i ->
    Z.of_nat
      (List.length
         (filter (fun r => String.eqb (status r) st)
            (map (fun r => if id r =? i then set_status v r else r) ls)))
    = Z.of_nat
        (List.length (filter (fun r => String.eqb (status r) st) ls))
      - (if String.eqb (status l) st then 1 else 0)
      + (if String.eqb v st then 1 else 0).
Proof.
  induction ls as [|r ls IH]; intros Hnd Hin Hid; [destruct Hin|].
  cbn [map] in Hnd. apply NoDup_cons_iff in Hnd as [Hnot Hnd].
  destruct Hin as [->|Hin].
  - assert (Hrest : map (fun r => if id r =? i then set_status v r else r) ls
                    = ls).
    { rewrite <- (map_id ls) at 2. apply map_ext_in. intros r Hr.
      destruct (Z.eqb_spec (id r) i) as [E|]; [|reflexivity].
      exfalso. apply Hnot. rewrite Hid, <- E. now apply in_map. }
    cbn [map filter]. rewrite Hrest, Hid, Z.eqb_refl. cbn [status set_status].
    destruct (String.eqb v st), (String.eqb (status l) st);
      cbn [List.length]; lia.
  - assert (Hne : (id r =? i) = false).
    { apply Z.eqb_neq. intros E. apply Hnot. rewrite E, <- Hid.
      now apply in_map. }
    cbn [map filter]. rewrite Hne.
    specialize (IH Hnd Hin Hid).
    destruct (String.eqb (status r) st); cbn [List.length]; lia.
Qed.

(** X16.  A revocation shows in the statistics: on tables with distinct
    ids, revoking a license that is active takes one from the active count
    of [getStats] and adds one to the revoked count, the total and the
    expired count staying as they are. *)
Theorem revokeLicense_in_stats (i : Z) (db : database) (l : license) :
  constraints db ->
  fst (getLicenseById i db) = Some l ->
  status l = "active" ->
  let old := fst (getStats db) in
  let new := fst (getStats (snd (revokeLicense i db))) in
  active new = active old - 1
  /\ revoked new = revoked old + 1
  /\ expired new = expired old
  /\ total new = total old.
Proof.
  intros (_ & Hids & _) Hl Hactive.
  unfold getLicenseById, run, select_license_by_id in Hl. cbn [fst] in Hl.
  apply find_some in Hl as [Hin Hid]. apply Z.eqb_eq in Hid.
  unfold getStats, revokeLicense.
  cbv beta iota zeta delta [run bind ret update_license with_licenses].
  cbn [fst snd total active expired revoked licenses].
  unfold countStatus. cbn [licenses].
  rewrite !(count_after_status _ "revoked" i l (licenses db) Hids Hin Hid).
  rewrite Hactive, length_map. cbn. repeat split; lia.
Qed.

(** ** Helpers for the routes *)

Section RouteHelpers.

Context {crypto : NodeCrypto} {jwt : JsonWebToken}.

Lemma admin_gate (c : credentials) :
  (exists user, authMiddleware c = inr user)
  \/ (exists denied, authMiddleware c = inl denied
                     /\ statusCode denied = 401).
Proof.
  destruct (authMiddleware c) as [denied|user] eqn:Hauth;
    [right; exists denied|left; now exists user].
  split; [reflexivity|].
  unfold authMiddleware in Hauth. cbv zeta in Hauth.
  repeat match type of Hauth with
         | context [match ?x with _ => _ end] => destruct x
         end; try discriminate; injection Hauth as <-; reflexivity.
Qed.

Lemma validateLicense_valid_for_prefix (e : env) (k m : string)
    (db : database) :
  startsWith k "RATO-" = true ->
  valid (fst (validateLicense e k m db)) = true.
Proof.
  intros Hp.
  destruct (lookupKey k db) as [l|] eqn:Hl.
  - now rewrite (validateLicense_found e k m db l Hl).
  - destruct (validateLicense_creates e k m db Hl Hp) as [Hnew ->].
    now rewrite (validateLicense_found e k m _ _ Hnew).
Qed.

End RouteHelpers.

(** ** The routes *)

Section RouteFacts.

Context {crypto : NodeCrypto} {jwt : JsonWebToken}.

(** X17.  The administrative routes are closed without a token that
    verifies: either the request carries a token — the cookie [token], or,
    when there is none, what follows 'Bearer ' in the Authorization
    header — that [jwt.verify] accepts, and the middleware calls the
    handler; or the routes that read, create, update, revoke and reset
    licenses all answer 401 and leave the database as it is. *)
Theorem admin_routes_need_token (c : credentials) :
  (exists token user,
     (present (cookie_token c) = Some token
      \/ (present (cookie_token c) = None
          /\ exists header,
               present (authorization c) = Some header
               /\ startsWith header "Bearer " = true
               /\ sliceFrom header 7 = token))
     /\ jwt_verify token = Some user
     /\ authMiddleware c = inr user)
  \/ (exists denied,
        authMiddleware c = inl denied
        /\ statusCode denied = 401
        /\ forall e i mail pl machines u db,
             getLicense c i db = (denied, db)
             /\ postLicense e c mail pl machines db = (denied, db)
             /\ putLicense c i u db = (denied, db)
             /\ deleteLicense c i db = (denied, db)
             /\ postResetMachines c i db = (denied, db)).
Proof.
  assert (Hdenied : forall denied,
            authMiddleware c = inl denied ->
            forall e i mail pl machines u db,
              getLicense c i db = (denied, db)
              /\ postLicense e c mail pl machines db = (denied, db)
              /\ putLicense c i u db = (denied, db)
              /\ deleteLicense c i db = (denied, db)
              /\ postResetMachines c i db = (denied, db)).
  { intros denied H e i mail pl machines u db.
    unfold getLicense, postLicense, putLicense, deleteLicense,
      postResetMachines, authenticated.
    rewrite H. repeat split. }
  destruct (authMiddleware c) as [denied|user] eqn:Hauth.
  - right. exists denied. split; [reflexivity|].
    split; [|now apply Hdenied].
    unfold authMiddleware in Hauth. cbv zeta in Hauth.
    repeat match type of Hauth with
           | context [match ?x with _ => _ end] => destruct x
           end; try discriminate; injection Hauth as <-; reflexivity.
  - left. unfold authMiddleware in Hauth. cbv zeta in Hauth.
    destruct (present (cookie_token c)) as [token|] eqn:Hcookie.
    + exists token, user. split; [now left|].
      destruct (jwt_verify token) eqn:Hv; [|discriminate].
      injection Hauth as <-. split; reflexivity.
    + destruct (present (authorization c)) as [header|] eqn:Hheader;
        [|discriminate].
      destruct (startsWith header "Bearer ") eqn:Hbearer; [|discriminate].
      destruct (present (Some (sliceFrom header 7))) as [token|] eqn:Htoken;
        [|discriminate].
      assert (Hslice : sliceFrom header 7 = token).
      { cbn [present] in Htoken.
        destruct (sliceFrom header 7); [discriminate|].
        now injection Htoken. }
      exists token, user. split.
      * right. split; [reflexivity|]. now exists header.
      * destruct (jwt_verify token) eqn:Hv; [|discriminate].
        injection Hauth as <-. split; reflexivity.
Qed.

(** X18.  An id that no license has is answered 404: for a request that
    passes the middleware, the routes that read, update, revoke and reset a
    license answer 404 'License not found' and leave the database as it
    is. *)
Theorem routes_answer_404 (c : credentials) (user : value) (i : Z)
    (u : license_update) (db : database) :
  authMiddleware c = inr user ->
  fst (getLicenseById i db) = None ->
  let notFound := mkResponse 404 (ErrorReply "License not found") in
  getLicense c i db = (notFound, db)
  /\ putLicense c i u db = (notFound, db)
  /\ deleteLicense c i db = (notFound, db)
  /\ postResetMachines c i db = (notFound, db).
Proof.
  intros Hauth Hnone notFound.
  destruct (unknown_id_updates i u db Hnone) as [Hupd _].
  unfold getLicense, putLicense, deleteLicense, postResetMachines,
    authenticated.
  rewrite Hauth, Hupd.
  unfold getLicenseById, run, select_license_by_id in *. cbn [fst] in Hnone.
  rewrite Hnone. repeat split.
Qed.

(** X19.  The creation route stores known plans only: whatever the
    credentials and the fields [email], [plan] and [maxMachines] of the
    body, either [POST /api/licenses] answers 201 with a license whose plan
    is the plan of the body, one of monthly, annual and lifetime, and which
    is stored under the returned key, active and with no machine bound, or
    it answers 400, 401 or 500 and leaves the database as it is. *)
Theorem postLicense_outcomes (e : env) (c : credentials)
    (mail pl : option string) (machines : option Z) (db : database) :
  let answer := postLicense e c mail pl machines db in
  (statusCode (fst answer) = 201
   /\ exists created row,
        body (fst answer) = CreatedReply created
        /\ pl = Some (new_plan created)
        /\ In (new_plan created) ["monthly"; "annual"; "lifetime"]
        /\ lookupKey (new_key created) (snd answer) = Some row
        /\ plan row = new_plan created
        /\ status row = "active"
        /\ machines_used row = Some (MachinesJson []))
  \/ (In (statusCode (fst answer)) [400; 401; 500]
      /\ snd answer = db).
Proof.
  intros answer. subst answer.
  destruct (admin_gate c) as [(user & Hauth)|(denied & Hauth & Hcode)].
  2:{ right. unfold postLicense, authenticated. rewrite Hauth.
      cbn [fst snd]. rewrite Hcode. split; [cbn; tauto|reflexivity]. }
  unfold postLicense, authenticated. rewrite Hauth.
  destruct (present pl) as [p|] eqn:Hpl; [|right; cbn; tauto].
  assert (pl = Some p) as ->.
  { destruct pl as [[|a s]|]; cbn [present] in Hpl;
      [discriminate|now injection Hpl as <-|discriminate]. }
  destruct (existsb (String.eqb p) ["monthly"; "annual"; "lifetime"])
    eqn:Hknown; cbn [negb]; [|right; cbn; tauto].
  destruct (lookupKey (generateLicenseKey (Math_random e)) db) as [l|] eqn:Hl.
  - right.
    rewrite (createLicense_taken e (mkData mail p machines) db l Hl).
    cbn. tauto.
  - left.
    destruct (createLicense_fresh e (mkData mail p machines) db Hl)
      as (row & db' & -> & Hlook & Hkey & Hplan & _ & Hst & Hmach).
    cbn [fst snd statusCode body]. split; [reflexivity|].
    eexists. exists row. split; [reflexivity|].
    cbn [new_plan new_key data_plan] in *. rewrite Hkey.
    split; [reflexivity|].
    split; [|repeat split; assumption].
    apply existsb_exists in Hknown as (x & Hin & E).
    apply String.eqb_eq in E. now subst.
Qed.

(** X20.  The validation route is open and accepts every RATO- key: it
    reads no credentials; with a key or a machine identifier that is absent
    or empty it answers 400 and leaves the database as it is; and for every
    key that starts with RATO- and every machine identifier that is not
    empty it answers 200 with valid:true, whatever the database holds. *)
Theorem postValidate_open (e : env) (k m : option string) (db : database) :
  (present k = None \/ present m = None ->
   postValidate e k m db
   = (mkResponse 400
        (ValidationReply (invalid "Key and machine ID are required")), db))
  /\ (forall key machine,
        present k = Some key -> present m = Some machine ->
        startsWith key "RATO-" = true ->
        statusCode (fst (postValidate e k m db)) = 200
        /\ exists r,
             body (fst (postValidate e k m db)) = ValidationReply r
             /\ r = fst (validateLicense e key machine db)
             /\ valid r = true
             /\ snd (postValidate e k m db)
                = snd (validateLicense e key machine db)).
Proof.
  unfold postValidate. split.
  - intros [-> | Hm]; [reflexivity|]. rewrite Hm.
    now destruct (present k).
  - intros key machine -> -> Hp.
    destruct (validateLicense e key machine db) as [r db'] eqn:Hv.
    cbn [fst snd statusCode body]. split; [reflexivity|].
    exists r. repeat split.
    pose proof (validateLicense_valid_for_prefix e key machine db Hp) as H.
    now rewrite Hv in H.
Qed.

End RouteFacts.

(** ** Runs of the further properties

    On the database of the examples, with the stand-ins for Node's crypto
    and for [jsonwebtoken]. *)

Module Checks.

Import Example Admin.

Lemma february_in_range :
  -62167219200000 <= Date_now february < 250246540800000.
Proof. vm_compute. split; [discriminate|reflexivity]. Qed.

Lemma march_in_range :
  -62167219200000 <= Date_now march < 250246540800000.
Proof. vm_compute. split; [discriminate|reflexivity]. Qed.

Lemma february_zone : offsetsWithinADay february.
Proof. intros t isUTC. vm_compute. reflexivity. Qed.

Lemma march_zone : offsetsWithinADay march.
Proof.
  intros t isUTC. unfold march, newYork. cbn [LocalTZA].
  destruct (t <? _); vm_compute; reflexivity.
Qed.

Lemma db1_safe : safeIntegers db1.
Proof.
  split; [vm_compute; discriminate|].
  intros l [<-|[]]. split; vm_compute; discriminate.
Qed.

Lemma constraints_db1 : constraints db1.
Proof.
  unfold constraints, db1. cbn [licenses licenses_seq activation_logs map].
  repeat split.
  - repeat constructor. intros [].
  - repeat constructor. intros [].
  - intros l [<-|[]]. cbn. lia.
  - intros a [].
Qed.

Lemma sealed_data1 : @sealed standIn february data1.
Proof. split; reflexivity. Qed.

(** A monthly license made in New York on the first of March 2025, eight
    days before the clocks change (X1). *)
Lemma not_expired_run :
  -62167219200000 <= Date_now march < 250246540800000
  /\ offsetsWithinADay march
  /\ exists days t,
       28 <= days <= 36525
       /\ t = Date_now march + days * msPerDay + offsetChange march days
       /\ Date_parse (otherFormats march)
            (calculateExpiration march "monthly") = Some t
       /\ Date_now march + 26 * msPerDay < t
          < Date_now march + 36527 * msPerDay
       /\ before (Date_parse (otherFormats march)
                    (calculateExpiration march "monthly"))
                 (Date_now march) = false.
Proof.
  split; [exact march_in_range|]. split; [exact march_zone|].
  exact (calculateExpiration_not_expired march "monthly" march_in_range
           march_zone).
Defined.

(** The data of the example token, encrypted and decrypted (X2). *)
Lemma decrypt_encrypt_run :
  String.length (randomBytes february) = (IV_LENGTH * 2)%nat
  /\ @sealed standIn february data1
  /\ @decryptLicenseData standIn (@encryptLicenseData standIn february data1)
     = Some data1.
Proof.
  split; [reflexivity|]. split; [exact sealed_data1|].
  exact (@decryptLicenseData_encryptLicenseData standIn february data1
           eq_refl sealed_data1).
Defined.

(** The example token is accepted, and its signature is the HMAC (X3). *)
Lemma sound_run :
  @verifyOfflineToken standIn february (iv ++ tag ++ "01")
  = Return (mkResult true None None None (Some data1))
  /\ exists d message,
       @decryptLicenseData standIn (iv ++ tag ++ "01") = Some d
       /\ Some data1 = Some d
       /\ before (new_Date (otherFormats february) (get d "expiresAt"))
                 (Date_now february) = false
       /\ add (add (ToPrimitive (get d "key"))
                   (ToPrimitive (get d "machineId")))
              (ToPrimitive (get d "expiresAt")) = PStr message
       /\ get d "validationSignature"
          = Some (VStr (label config.licenseSecret message)).
Proof.
  split; [reflexivity|].
  exact (@verifyOfflineToken_sound standIn february (iv ++ tag ++ "01")
           (mkResult true None None None (Some data1)) eq_refl eq_refl).
Defined.

(** The token of [license1], which expires on 2025-02-15, is valid on the
    first of February and expired on the first of March (X4). *)
Lemma by_expiry_run :
  String.length (randomBytes february) = (IV_LENGTH * 2)%nat
  /\ @sealed standIn february (@offlineTokenData standIn february license1 "A")
  /\ Date_parse engine (expires_at license1) = Some 1739613600000
  /\ @verifyOfflineToken standIn
       (mkEnv 1740787200000 utc engine iv sequence)
       (@createOfflineToken standIn february license1 "A")
     = Return (invalid "License expired")
  /\ @valid_token standIn february february license1 "A".
Proof.
  split; [reflexivity|]. split; [exact sealed_data1|].
  split; [reflexivity|]. split.
  - exact (proj1 (@verify_created_token_by_expiry standIn february
                    (mkEnv 1740787200000 utc engine iv sequence)
                    license1 "A"
                    1739613600000 eq_refl sealed_data1 eq_refl)
             eq_refl).
  - refine (proj2 (@verify_created_token_by_expiry standIn february
                     february license1 "A" 1739613600000 eq_refl
                     sealed_data1 eq_refl) _).
    vm_compute. discriminate.
Defined.

(** The token of the validation of machine A verifies (X5). *)
Lemma token_verifies_run :
  lookupKey K db1 = Some license1
  /\ offsetsWithinADay february
  /\ @sealed standIn february
       (@offlineTokenData standIn february
          (validated february "A" license1 license1) "A")
  /\ exists token d,
       offlineToken (fst (@validateLicense standIn february K "A" db1))
       = Some token
       /\ @verifyOfflineToken standIn february token
          = Return (mkResult true None None None (Some d))
       /\ get d "key" = Some (VStr K)
       /\ get d "machineId" = Some (VStr "A").
Proof.
  split; [reflexivity|]. split; [exact february_zone|].
  split; [exact sealed_data1|].
  exact (@validateLicense_token_verifies standIn february K "A" db1 license1
           eq_refl february_in_range february_zone eq_refl sealed_data1).
Defined.

(** The validation of machine B appends one row to the empty log (X6). *)
Lemma frame_run :
  lookupKey K db1 = Some license1
  /\ activation_logs (snd (@validateLicense standIn february K "B" db1))
     = [mkLog 1 1 "B" "validate" None (CURRENT_TIMESTAMP (Date_now february))]
  /\ List.length (licenses (snd (@validateLicense standIn february K "B" db1)))
     = 1%nat.
Proof.
  split; [reflexivity|].
  pose proof (@validateLicense_frame standIn february K "B" db1 license1
                eq_refl) as H.
  cbv zeta in H.
  destruct H as (_ & _ & Hlen & _ & Hlog & _).
  split; [exact Hlog|exact Hlen].
Defined.

(** The result of the validation of machine B shows the stored row, with
    two machines (X7). *)
Lemma shows_stored_row_run :
  safeIntegers db1
  /\ valid (fst (@validateLicense standIn february K "B" db1)) = true
  /\ exists l',
       lookupKey K (snd (@validateLicense standIn february K "B" db1))
       = Some l'
       /\ licenseInfo (fst (@validateLicense standIn february K "B" db1))
          = Some (publicView l')
       /\ key l' = K
       /\ safeInteger (id l') /\ safeInteger (max_machines l').
Proof.
  split; [exact db1_safe|]. split; [reflexivity|].
  exact (@validateLicense_shows_stored_row standIn february K "B" db1
           db1_safe eq_refl).
Defined.

(** Machine B after a reset of [license1] (X8). *)
Lemma after_reset_run :
  lookupKey K db1 = Some license1
  /\ exists l',
       lookupKey K
         (snd (@validateLicense standIn february K "B"
                 (snd (resetMachines (id license1) db1)))) = Some l'
       /\ machines_used l' = Some (MachinesJson ["B"]).
Proof.
  split; [reflexivity|].
  exact (proj2 (@validateLicense_after_reset standIn february K "B" db1
                  license1 eq_refl)).
Defined.

(** The constraints hold on [db1] and after the five calls (X9). *)
Lemma constraints_run :
  constraints db1
  /\ constraints
       (snd (createLicense february (mkData None "annual" None) db1))
  /\ constraints (snd (@validateLicense standIn february K "B" db1))
  /\ constraints
       (snd (updateLicense 1 (mkUpdate None (Some "annual") None None None)
               db1))
  /\ constraints (snd (revokeLicense 1 db1))
  /\ constraints (snd (resetMachines 1 db1)).
Proof.
  split; [exact constraints_db1|].
  exact (@constraints_kept standIn february K "B" 1
           (mkData None "annual" None)
           (mkUpdate None (Some "annual") None None None) db1
           constraints_db1).
Defined.

(** An annual license created in [db1] is found under id 2 (X10). *)
Lemma create_then_get_run :
  constraints db1
  /\ lookupKey (generateLicenseKey (Math_random february)) db1 = None
  /\ exists c row,
       fst (createLicense february (mkData None "annual" None) db1)
       = Return c
       /\ fst (getLicenseById (new_id c)
                 (snd (createLicense february (mkData None "annual" None)
                         db1)))
          = Some row
       /\ lookupKey (new_key c)
            (snd (createLicense february (mkData None "annual" None) db1))
          = Some row
       /\ id row = new_id c /\ key row = new_key c
       /\ plan row = "annual" /\ expires_at row = new_expiresAt c
       /\ max_machines row = 1
       /\ machines_used row = Some (MachinesJson [])
       /\ status row = "active".
Proof.
  split; [exact constraints_db1|]. split; [reflexivity|].
  exact (createLicense_then_getLicenseById february
           (mkData None "annual" None) db1 constraints_db1 eq_refl).
Defined.

(** The license created in [db1] validates for machine A at once (X11). *)
Lemma create_then_validate_run :
  lookupKey (generateLicenseKey (Math_random february)) db1 = None
  /\ offsetsWithinADay february
  /\ Date_now february <= Date_now february + 26 * msPerDay
  /\ exists c,
       fst (createLicense february (mkData None "annual" None) db1)
       = Return c
       /\ valid (fst (@validateLicense standIn february (new_key c) "A"
                        (snd (createLicense february
                                (mkData None "annual" None) db1)))) = true.
Proof.
  assert (Hle : Date_now february <= Date_now february + 26 * msPerDay)
    by (vm_compute; discriminate).
  split; [reflexivity|]. split; [exact february_zone|]. split; [exact Hle|].
  destruct (@create_then_validate standIn february february
              (mkData None "annual" None) "A" db1 eq_refl
              february_in_range february_zone Hle) as (c & Hc & _ & Hv & _).
  exists c. split; [exact Hc|]. rewrite Hv. reflexivity.
Defined.

(** No license of [db1] has the id 7 (X13). *)
Lemma unknown_id_run :
  fst (getLicenseById 7 db1) = None
  /\ updateLicense 7 (mkUpdate None None None (Some "expired") None) db1
     = (None, db1)
  /\ snd (revokeLicense 7 db1) = db1
  /\ snd (resetMachines 7 db1) = db1.
Proof.
  split; [reflexivity|].
  exact (unknown_id_changes_nothing 7
           (mkUpdate None None None (Some "expired") None) db1 eq_refl).
Defined.

(** Revoking [license1], the only license of [db1] (X16). *)
Lemma in_stats_run :
  constraints db1
  /\ fst (getLicenseById 1 db1) = Some license1
  /\ status license1 = "active"
  /\ active (fst (getStats (snd (revokeLicense 1 db1))))
     = active (fst (getStats db1)) - 1
  /\ revoked (fst (getStats (snd (revokeLicense 1 db1))))
     = revoked (fst (getStats db1)) + 1.
Proof.
  split; [exact constraints_db1|]. split; [reflexivity|].
  split; [reflexivity|].
  pose proof (revokeLicense_in_stats 1 db1 license1 constraints_db1
                eq_refl eq_refl) as H.
  cbv zeta in H. destruct H as (Ha & Hr & _).
  split; [exact Ha|exact Hr].
Defined.

(** The administrator asks for the license 7, which does not exist
    (X18). *)
Lemma not_found_run :
  @authMiddleware tokens admin = inr user
  /\ fst (getLicenseById 7 db1) = None
  /\ @getLicense tokens admin 7 db1
     = (mkResponse 404 (ErrorReply "License not found"), db1)
  /\ @deleteLicense tokens admin 7 db1
     = (mkResponse 404 (ErrorReply "License not found"), db1).
Proof.
  split; [reflexivity|]. split; [reflexivity|].
  pose proof (@routes_answer_404 tokens admin user 7
                (mkUpdate None None None None None) db1 eq_refl eq_refl)
    as H.
  cbv zeta in H. destruct H as (Hg & _ & Hd & _).
  split; [exact Hg|exact Hd].
Defined.

(** A key with the prefix, sent without credentials to the empty
    database (X20). *)
Lemma open_run :
  startsWith "RATO-ZZZZ-ZZZZ-ZZZZ-ZZZZ" "RATO-" = true
  /\ statusCode
       (fst (@postValidate standIn february
               (Some "RATO-ZZZZ-ZZZZ-ZZZZ-ZZZZ") (Some "A") empty)) = 200
  /\ @postValidate standIn february (Some "RATO-ZZZZ-ZZZZ-ZZZZ-ZZZZ") None
       empty
     = (mkResponse 400
          (ValidationReply (invalid "Key and machine ID are required")),
        empty).
Proof.
  split; [reflexivity|]. split.
  - exact (proj1 (proj2 (@postValidate_open standIn february
                           (Some "RATO-ZZZZ-ZZZZ-ZZZZ-ZZZZ") (Some "A")
                           empty)
                    "RATO-ZZZZ-ZZZZ-ZZZZ-ZZZZ" "A" eq_refl eq_refl eq_refl)).
  - exact (proj1 (@postValidate_open standIn february
                    (Some "RATO-ZZZZ-ZZZZ-ZZZZ-ZZZZ") None empty)
             (or_intror eq_refl)).
Defined.

End Checks.
